(** * pyft: track-point enrichment, split markers, lap statistics and parsers

    A shallow embedding of the numeric core of pyft:
    - [pyft/serialize/parse.py]: [BaseParser.infer_points_data],
      [GPXParser.activity_type], [FITParser._add_point];
    - [pyft/parse/parsers.py]: the earlier [BaseParser.infer_points_data] with
      its outlier pass over [km_pace];
    - [pyft/activity.py]: [Activity.get_split_markers];
    - [pyft/df_utils/helper_funcs.py]: [get_lap_durations], [get_lap_distances].

    Conventions.  A pandas column is a [list]; a DataFrame is a list of row
    records.  Floating-point numbers are idealised as exact rationals [Q];
    a cell that pandas would show as NaN / NaT / None, or that numpy would
    make non-finite by dividing by zero, is [None].  Timestamps are integer
    counts of nanoseconds ([Z]), as pandas stores them.  A Python exception is
    a [Raise] result. *)

From Stdlib Require Import String Ascii.
From Stdlib Require Import List ZArith QArith Qround Qabs Bool Lia Lqa.
From Stdlib Require Import Sorting.Sorted Sorting.Permutation.
Import ListNotations.

Set Implicit Arguments.

(** ** Python results *)

(** [IndexError] carries the positional indexer that was out of bounds
    ([0] for [.iloc[0]], [-1] for [.iloc[-1]]).  [SchemaError] is the error
    kind the specification names; no function of the sources raises it. *)
Inductive pyerror : Type :=
| IndexError (indexer : Z)
| ValueError
| AttributeError
| SchemaError.

Inductive result (A : Type) : Type :=
| Ok (a : A)
| Raise (e : pyerror).

Arguments Ok {A} a.
Arguments Raise {A} e.

Definition bind {A B : Type} (r : result A) (k : A -> result B) : result B :=
  match r with
  | Ok a => k a
  | Raise e => Raise e
  end.

Notation "x <- r ;; k" := (bind r (fun x => k))
  (at level 61, r at next level, right associativity).

(** ** Floats with a missing value *)

Definition float := option Q.

Definition MILE : Q := 1609344 # 1000.

Definition fsub (a b : float) : float :=
  match a, b with
  | Some x, Some y => Some (x - y)
  | _, _ => None
  end.

Definition fmul (a b : float) : float :=
  match a, b with
  | Some x, Some y => Some (x * y)
  | _, _ => None
  end.

(** [c / x] for a float constant [c]: numpy yields inf or nan for [x = 0],
    which is a missing value here. *)
Definition fdiv (a b : float) : float :=
  match a, b with
  | Some x, Some y => if Qeq_bool y 0 then None else Some (x / y)
  | _, _ => None
  end.

(** Difference of two timestamps, [NaT] when either is. *)
Definition tsub (a b : option Z) : float :=
  match a, b with
  | Some x, Some y => Some (inject_Z (x - y))
  | _, _ => None
  end.

(** [Timedelta.total_seconds()], a timedelta counting nanoseconds. *)
Definition total_seconds (td : float) : float :=
  option_map (fun ticks => ticks / 1000000000) td.

(** ** Column operations of pandas *)

Section Columns.
Variable A : Type.

(** [Series.shift(periods, fill_value)]. *)
Definition shift (periods : Z) (fill : A) (c : list A) : list A :=
  if (0 <=? periods)%Z then
    let k := Nat.min (Z.to_nat periods) (length c) in
    repeat fill k ++ firstn (length c - k) c
  else
    let k := Nat.min (Z.to_nat (- periods)) (length c) in
    skipn k c ++ repeat fill k.

(** [.iloc[0]] and [.iloc[-1]]. *)
Definition iloc_first (c : list A) : result A :=
  match c with
  | [] => Raise (IndexError 0)
  | x :: _ => Ok x
  end.

Fixpoint last_error (c : list A) : option A :=
  match c with
  | [] => None
  | [x] => Some x
  | _ :: r => last_error r
  end.

Definition iloc_last (c : list A) : result A :=
  match last_error c with
  | None => Raise (IndexError (-1))
  | Some x => Ok x
  end.

Variable B : Type.

Fixpoint mapi_from (f : nat -> A -> B) (i : nat) (c : list A) : list B :=
  match c with
  | [] => []
  | x :: r => f i x :: mapi_from f (S i) r
  end.
End Columns.

(** Element-wise binary operation on two columns. *)
Fixpoint map2 {A B C : Type} (f : A -> B -> C) (a : list A) (b : list B) : list C :=
  match a, b with
  | x :: a', y :: b' => f x y :: map2 f a' b'
  | _, _ => []
  end.

(** [Series.shift(periods)]: the vacated cells are missing. *)
Definition shift_na {A : Type} (periods : Z) (c : list A) : list (option A) :=
  shift periods None (map Some c).

Definition fillna (v : Q) (c : list float) : list Q :=
  map (fun x => match x with Some q => q | None => v end) c.

Fixpoint cumsum_from (acc : Q) (c : list Q) : list Q :=
  match c with
  | [] => []
  | x :: r => (acc + x) :: cumsum_from (acc + x) r
  end.

Definition cumsum (c : list Q) : list Q :=
  match c with
  | [] => []
  | x :: r => x :: cumsum_from x r
  end.

Definition Qsum (c : list Q) : Q := fold_right Qplus 0 c.

(** [Series.sum()] skips missing values. *)
Definition sum_skipna (c : list float) : Q := Qsum (fillna 0 c).

(** [Series.mean()] skips missing values; the mean of no value is missing. *)
Definition present (c : list float) : list Q :=
  flat_map (fun x => match x with Some q => [q] | None => [] end) c.

Definition mean (c : list float) : float :=
  match present c with
  | [] => None
  | v => Some (Qsum v / inject_Z (Z.of_nat (length v)))
  end.

(** ** Track points *)

(** A row with the columns of [BaseParser.INITIAL_COL_NAMES]. *)
Record RawPoint : Type := mkRawPoint {
  point_no : Z;
  track_no : Z;
  segment_no : Z;
  latitude : Q;
  longitude : Q;
  elevation : float;
  time : Z;
  hr : option Z;
  cadence : option Z
}.

(** A row of the frame [infer_points_data] returns. *)
Record Point : Type := mkPoint {
  initial : RawPoint;
  step_length_2d : float;
  cumul_distance_2d : Q;
  km : Z;
  mile : Z;
  run_time : Z;
  km_pace : float;
  mile_pace : float;
  kmph : float;
  mph : float
}.

(** ** [BaseParser.infer_points_data] of pyft/serialize/parse.py *)

(** The frame is typed: the [ValueError] for a frame that lacks one of the
    initial columns has no counterpart here. *)

Section InferPointsData.
(** [pyft.geo_utils.haversine_distance] on the cells of one row: a pair of
    coordinates and the pair of the row before.  Its source is not part of
    the sources at hand. *)
Variable haversine_distance : float -> float -> float -> float -> float.

(** [config.speed_measure_interval]. *)
Variable speed_measure_interval : Z.

Definition distance_2d (lat1 lon1 lat2 lon2 : list float) : list float :=
  map2 (fun a b => haversine_distance (fst a) (snd a) (fst b) (snd b))
       (combine lat1 lon1) (combine lat2 lon2).

(** Lines 48-50: [df['step_length_2d']]. *)
Definition step_col (df : list RawPoint) : list float :=
  let lat := map (fun r => Some (latitude r)) df in
  let lon := map (fun r => Some (longitude r)) df in
  let prev_lat := shift 1 None lat in
  let prev_lon := shift 1 None lon in
  distance_2d lat lon prev_lat prev_lon.

(** Line 51: [df['cumul_distance_2d']]. *)
Definition cumul_col (df : list RawPoint) : list Q :=
  cumsum (fillna 0 (step_col df)).

(** Lines 52-53: [(cumul // unit_length).astype(int)]. *)
Definition bucket (unit_length : Q) (cumul : Q) : Z :=
  Qfloor (cumul / unit_length).

(** Line 60 and [df['time'] - prev_time]. *)
Definition time_delta_col (df : list RawPoint) : list float :=
  let t := map time df in
  let prev_time := shift_na speed_measure_interval t in
  map2 tsub (map Some t) prev_time.

(** Lines 61-62. *)
Definition interval_distance_col (df : list RawPoint) : list float :=
  let cumul := cumul_col df in
  let prev_cumul_distance := shift_na speed_measure_interval cumul in
  map2 fsub (map Some cumul) prev_cumul_distance.

(** Line 63: [(1000 / interval_distance) * (df['time'] - prev_time)]. *)
Definition km_pace_col (df : list RawPoint) : list float :=
  map2 fmul (map (fdiv (Some 1000)) (interval_distance_col df))
            (time_delta_col df).

(** Line 64: [(MILE / df['step_length_2d']) * (df['time'] - prev_time)]. *)
Definition mile_pace_col (df : list RawPoint) : list float :=
  map2 fmul (map (fdiv (Some MILE)) (step_col df)) (time_delta_col df).

(** Lines 65-66. *)
Definition kmph_col (df : list RawPoint) : list float :=
  map (fun pace => fdiv (Some 3600) (total_seconds pace)) (km_pace_col df).

Definition mph_col (df : list RawPoint) : list float :=
  map (fun v => fdiv v (Some (MILE / 1000))) (kmph_col df).

(** The frame returned: the rows of [df], each with the cells of the new
    columns; [df.iloc[0]] (line 54) fails on a frame without rows. *)
Definition infer_points_data (df : list RawPoint) : result (list Point) :=
  let step := step_col df in
  let cumul := cumul_col df in
  let km_c := map (bucket 1000) cumul in
  let mile_c := map (bucket MILE) cumul in
  first <- iloc_first df ;;
  let run := map (fun r => (time r - time first)%Z) df in
  let km_pace_c := km_pace_col df in
  let mile_pace_c := mile_pace_col df in
  let kmph_c := kmph_col df in
  let mph_c := mph_col df in
  Ok (mapi_from
        (fun i r =>
           {| initial := r;
              step_length_2d := nth i step None;
              cumul_distance_2d := nth i cumul 0;
              km := nth i km_c 0%Z;
              mile := nth i mile_c 0%Z;
              run_time := nth i run 0%Z;
              km_pace := nth i km_pace_c None;
              mile_pace := nth i mile_pace_c None;
              kmph := nth i kmph_c None;
              mph := nth i mph_c None |})
        0%nat df).
End InferPointsData.

(** ** The outlier pass of [BaseParser.infer_points_data], pyft/parse/parsers.py *)

(** A quotient of two timedeltas is a float that can be infinite. *)
Inductive zfloat : Type :=
| Finite (q : Q)
| Infinite
| NotANumber.

Definition zscore_cell (x m s : float) : zfloat :=
  match x, m, s with
  | Some x, Some m, Some s =>
      if Qeq_bool s 0
      then (if Qeq_bool (x - m) 0 then NotANumber else Infinite)
      else Finite ((x - m) / s)
  | _, _, _ => NotANumber
  end.

(** [np.abs(z) < 1] and [np.abs(z) >= 1]; both are false of a NaN. *)
Definition abs_lt_1 (z : zfloat) : bool :=
  match z with
  | Finite q => negb (Qle_bool 1 (Qabs q))
  | Infinite | NotANumber => false
  end.

Definition abs_ge_1 (z : zfloat) : bool :=
  match z with
  | Finite q => Qle_bool 1 (Qabs q)
  | Infinite => true
  | NotANumber => false
  end.

(** [(a + b) / 2] on cells. *)
Definition favg (a b : float) : float :=
  match a, b with
  | Some x, Some y => Some ((x + y) / 2)
  | _, _ => None
  end.

(** [Series.where(cond, other)]: keep the cell where [cond] holds. *)
Fixpoint where_ {A : Type} (c : list A) (cond : list bool) (other : list A) : list A :=
  match c, cond, other with
  | x :: c', b :: cond', y :: other' =>
      (if b then x else y) :: where_ c' cond' other'
  | _, _, _ => []
  end.

Section Legacy.
Variable haversine_distance : float -> float -> float -> float -> float.

(** [Series.std()] of pandas: the sample standard deviation of the present
    cells, a square root. *)
Variable std : list float -> float.

(** Lines 36-43: the pace between consecutive points. *)
Definition legacy_km_pace_col (df : list RawPoint) : list float :=
  let step := step_col haversine_distance df in
  let t := map time df in
  let prev_time := shift_na 1 t in
  map2 fmul (map (fdiv (Some 1000)) step) (map2 tsub (map Some t) prev_time).

(** Lines 45-48: the outlier pass over the pace column. *)
Definition zscore_col (km_pace_c : list float) : list zfloat :=
  map (fun x => zscore_cell x (mean km_pace_c) (std km_pace_c)) km_pace_c.

Definition rolling_mean_col (km_pace_c : list float) : list float :=
  let mean_pace := mean km_pace_c in
  map2 favg (shift 1 mean_pace km_pace_c) (shift (-1) mean_pace km_pace_c).

Definition correct_outliers (km_pace_c : list float) : list float :=
  where_ km_pace_c (map abs_lt_1 (zscore_col km_pace_c))
         (rolling_mean_col km_pace_c).

Definition legacy_corrected_km_pace (df : list RawPoint) : list float :=
  correct_outliers (legacy_km_pace_col df).
End Legacy.

(** ** [FITParser] of pyft/serialize/parse.py *)

Module FIT.

(** The dict [data] that [_add_point] builds, one cell per key. *)
Record data : Type := mkData {
  point_no : Z;
  track_no : Z;
  segment_no : Z;
  latitude : float;
  longitude : float;
  elevation : float;
  time : option Z;
  hr : option Z;
  cadence : option Z
}.

(** The mutable attributes of the parser. *)
Record parser : Type := mkParser {
  _point : Z;
  _points_data : list data;
  _backfill : list data
}.

Definition init : parser :=
  {| _point := -1; _points_data := []; _backfill := [] |}.

Definition LATLON_TO_DECIMAL : Q := inject_Z (2 ^ 32) / 360.

(** One turn of [for k in data]: a cell of [to_add] that is [None] takes the
    cell of [data] when that one is not [None]. *)
Definition fill_cell {A : Type} (to_add new : option A) : option A :=
  match to_add, new with
  | None, Some v => Some v
  | _, _ => to_add
  end.

(** The loop [for k in data] over the nine keys; the first three cells are
    integers, never [None]. *)
Definition fill_from (new to_add : data) : data :=
  {| point_no := point_no to_add;
     track_no := track_no to_add;
     segment_no := segment_no to_add;
     latitude := fill_cell (latitude to_add) (latitude new);
     longitude := fill_cell (longitude to_add) (longitude new);
     elevation := fill_cell (elevation to_add) (elevation new);
     time := fill_cell (time to_add) (time new);
     hr := fill_cell (hr to_add) (hr new);
     cadence := fill_cell (cadence to_add) (cadence new) |}.

Definition is_none {A : Type} (x : option A) : bool :=
  match x with
  | None => true
  | Some _ => false
  end.

Definition make_data (no : Z) (lat lon : option Z) (elev : float)
           (timestamp heart_rate cad : option Z) : data :=
  {| point_no := no;
     track_no := 0;
     segment_no := 0;
     latitude := option_map (fun v => inject_Z v / LATLON_TO_DECIMAL) lat;
     longitude := option_map (fun v => inject_Z v / LATLON_TO_DECIMAL) lon;
     elevation := elev;
     time := timestamp;
     hr := heart_rate;
     cadence := cad |}.

Definition _add_point (self : parser) (lat lon : option Z) (elev : float)
           (timestamp heart_rate cad : option Z) : parser :=
  let no := (_point self + 1)%Z in
  let new := make_data no lat lon elev timestamp heart_rate cad in
  if is_none lat || is_none lon then
    {| _point := no;
       _points_data := _points_data self;
       _backfill := _backfill self ++ [new] |}
  else
    {| _point := no;
       _points_data :=
         _points_data self ++ map (fill_from new) (_backfill self) ++ [new];
       _backfill := [] |}.

(** A data message of the stream; a field the message lacks is [None]. *)
Record frame : Type := mkFrame {
  position_lat : option Z;
  position_long : option Z;
  altitude : float;
  timestamp : option Z;
  heart_rate : option Z;
  frame_cadence : option Z
}.

(** The body of the loop of [_parse], without the metadata. *)
Definition step (self : parser) (f : frame) : parser :=
  if negb (is_none (timestamp f)) && negb (is_none (altitude f)) then
    _add_point self (position_lat f) (position_long f) (altitude f)
               (timestamp f) (heart_rate f) (frame_cadence f)
  else self.

(** The rows [_parse] hands to [infer_points_data]: [self._points_data]
    once the stream is exhausted. *)
Definition parse_from (self : parser) (frames : list frame) : list data :=
  _points_data (fold_left step frames self).

Definition parse (frames : list frame) : list data := parse_from init frames.

(** A message [_parse] passes to [_add_point], and one whose point
    [_add_point] emits right away. *)
Definition accepted (f : frame) : bool :=
  negb (is_none (timestamp f)) && negb (is_none (altitude f)).

Definition has_position (f : frame) : bool :=
  negb (is_none (position_lat f)) && negb (is_none (position_long f)).

(** The dicts built for consecutive accepted messages, numbered after [no]. *)
Fixpoint buffer_of (no : Z) (frames : list frame) : list data :=
  match frames with
  | [] => []
  | f :: r =>
      make_data (no + 1) (position_lat f) (position_long f) (altitude f)
                (timestamp f) (heart_rate f) (frame_cadence f)
      :: buffer_of (no + 1) r
  end.

End FIT.

(** ** [GPXParser.activity_type] of pyft/serialize/parse.py *)

Module GPX.
Local Open Scope string_scope.

(** What [activity_type] reads of the parsed document: the [creator]
    attribute of the root element and the [type] of each track, either of
    which gpxpy leaves [None] when the file does not give it. *)
Record track : Type := mkTrack {
  type : option string
}.

Record gpx : Type := mkGpx {
  creator : option string;
  tracks : list track
}.

Definition ACTIVITY_TYPES : list string := ["run"; "walk"; "hike"].

Definition STRAVA_TYPES : list (string * string) :=
  [("4", "hike"); ("9", "run"); ("10", "walk")].

Definition GARMIN_TYPES : list (string * string) :=
  [("hiking", "hike"); ("running", "run"); ("walking", "walk")].

(** [key in a_set], the key possibly [None]. *)
Definition member (key : option string) (s : list string) : bool :=
  match key with
  | None => false
  | Some k => existsb (String.eqb k) s
  end.

(** [dict.get(key, default)]. *)
Fixpoint get (d : list (string * string)) (key : option string)
         (default : string) : string :=
  match d, key with
  | (k, v) :: r, Some k' => if String.eqb k k' then v else get r key default
  | _, _ => default
  end.

(** [creator.startswith(p)]; [None] has no such attribute. *)
Definition startswith (s : option string) (p : string) : result bool :=
  match s with
  | None => Raise AttributeError
  | Some c => Ok (String.prefix p c)
  end.

Definition activity_type (self : gpx) : result string :=
  let activity_type := "unknown" in
  match tracks self with
  | [] => Raise (IndexError 0)
  | t :: _ =>
      let track_type := type t in
      match track_type, member track_type ACTIVITY_TYPES with
      | Some declared, true => Ok declared
      | _, _ =>
          strava <- startswith (creator self) "StravaGPX" ;;
          if strava then Ok (get STRAVA_TYPES track_type activity_type)
          else
            garmin <- startswith (creator self) "Garmin Connect" ;;
            if garmin then Ok (get GARMIN_TYPES track_type activity_type)
            else Ok activity_type
      end
  end.

End GPX.

(** ** Lap statistics of pyft/df_utils/helper_funcs.py *)

(** A row of the [laps] frame. *)
Record Lap : Type := mkLap {
  start_time : Z
}.

(** A row of [points] once it carries the [lap] column. *)
Record LapPoint : Type := mkLapPoint {
  lap_point : Point;
  lap : Z
}.

Definition get_lap_durations (laps : list Lap) (points : list Point)
  : result (list Z) :=
  let start_times := map start_time laps in
  last <- iloc_last points ;;
  Ok (map2 Z.sub start_times (shift (-1) (time (initial last)) start_times)).

(** The keys of [groupby]: sorted, each once. *)
Fixpoint insert_key (k : Z) (keys : list Z) : list Z :=
  match keys with
  | [] => [k]
  | x :: r =>
      if (k <? x)%Z then k :: keys
      else if (k =? x)%Z then keys
      else x :: insert_key k r
  end.

Definition group_keys (points : list LapPoint) : list Z :=
  fold_right insert_key [] (map lap points).

Definition group (points : list LapPoint) (k : Z) : list LapPoint :=
  filter (fun p => (lap p =? k)%Z) points.

(** [groupby('lap').first()] of the cumulative distance. *)
Definition groupby_first (points : list LapPoint) : list Q :=
  flat_map (fun k => match group points k with
                     | [] => []
                     | p :: _ => [cumul_distance_2d (lap_point p)]
                     end)
           (group_keys points).

Definition get_lap_distances (points : list LapPoint) : result (list Q) :=
  let first := groupby_first points in
  last <- iloc_last points ;;
  Ok (map2 Qminus first
           (shift (-1) (cumul_distance_2d (lap_point last)) first)).

(** [points[cols].groupby('lap').mean()], a column being given by the cell
    it reads in a row: one row of means per lap. *)
Definition get_lap_means (cols : list (LapPoint -> float))
           (points : list LapPoint) : list (Z * list float) :=
  map (fun k => (k, map (fun col => mean (map col (group points k))) cols))
      (group_keys points).

(** ** [Activity.get_split_markers] of pyft/activity.py *)

(** A split marker: the interpolated row with its [ends] and [begins]. *)
Record Marker : Type := mkMarker {
  ends : Z;
  begins : Z;
  marker_latitude : float;
  marker_longitude : float;
  marker_elevation : float;
  marker_time : float;
  marker_hr : float;
  marker_cadence : float;
  marker_cumul_distance_2d : float
}.

(** [p1 + (p2 - p1) * portion] on one column. *)
Definition lerp (v1 v2 portion : float) : float :=
  match v1, v2, portion with
  | Some a, Some b, Some t => Some (a + (b - a) * t)
  | _, _, _ => None
  end.

Definition of_int (v : option Z) : float := option_map inject_Z v.

(** Modelled from the spec: [pyft.geo_utils.intersect_points] is imported by
    pyft/activity.py but its source is missing.  The specification (4.4) has
    latitude, longitude, elevation, heart rate, cadence and time linearly
    interpolated between [p1] and [p2] using [portion], and (3) gives the
    marker a cumulative distance, interpolated like the other columns.
    [ends] and [begins] are set by the caller. *)
Definition intersect_points (p1 p2 : Point) (portion : float) : Marker :=
  {| ends := 0;
     begins := 0;
     marker_latitude :=
       lerp (Some (latitude (initial p1))) (Some (latitude (initial p2))) portion;
     marker_longitude :=
       lerp (Some (longitude (initial p1))) (Some (longitude (initial p2))) portion;
     marker_elevation :=
       lerp (elevation (initial p1)) (elevation (initial p2)) portion;
     marker_time :=
       lerp (of_int (Some (time (initial p1)))) (of_int (Some (time (initial p2))))
            portion;
     marker_hr := lerp (of_int (hr (initial p1))) (of_int (hr (initial p2))) portion;
     marker_cadence :=
       lerp (of_int (cadence (initial p1))) (of_int (cadence (initial p2))) portion;
     marker_cumul_distance_2d :=
       lerp (Some (cumul_distance_2d p1)) (Some (cumul_distance_2d p2)) portion |}.

Definition set_ends_begins (m : Marker) (e b : Z) : Marker :=
  {| ends := e;
     begins := b;
     marker_latitude := marker_latitude m;
     marker_longitude := marker_longitude m;
     marker_elevation := marker_elevation m;
     marker_time := marker_time m;
     marker_hr := marker_hr m;
     marker_cadence := marker_cadence m;
     marker_cumul_distance_2d := marker_cumul_distance_2d m |}.

(** [range(a, a + n)]. *)
Fixpoint range_from (a : Z) (n : nat) : list Z :=
  match n with
  | O => []
  | S n' => a :: range_from (a + 1) n'
  end.

(** A [for] loop that appends one value per turn and stops at the first
    exception. *)
Fixpoint for_each {A B : Type} (body : A -> result B) (l : list A)
  : result (list B) :=
  match l with
  | [] => Ok []
  | x :: r =>
      y <- body x ;;
      ys <- for_each body r ;;
      Ok (y :: ys)
  end.

(** [split_col] and [split_len] for the two names [get_split_markers]
    takes; any other name is a [ValueError]. *)
Definition split_column (split_col : string)
  : result (Q * (Point -> Z)) :=
  if String.eqb split_col "km" then Ok (1000, km)
  else if String.eqb split_col "mile" then Ok (MILE, mile)
  else Raise ValueError.

Definition bucket_rows (col : Point -> Z) (df : list Point) (i : Z) : list Point :=
  filter (fun p => (col p =? i)%Z) df.

Definition underrun_at (split_len : Q) (i : Z) (p1 : Point) : Q :=
  split_len * inject_Z i - cumul_distance_2d p1.

Definition overrun_at (split_len : Q) (i : Z) (p2 : Point) : Q :=
  cumul_distance_2d p2 - split_len * inject_Z i.

Definition portion_at (split_len : Q) (i : Z) (p1 p2 : Point) : float :=
  fdiv (Some (underrun_at split_len i p1))
       (Some (underrun_at split_len i p1 + overrun_at split_len i p2)).

(** The body of the loop over [i]. *)
Definition split_marker (split_len : Q) (col : Point -> Z) (df : list Point)
           (i : Z) : result Marker :=
  p1 <- iloc_last (bucket_rows col df (i - 1)) ;;
  p2 <- iloc_first (bucket_rows col df i) ;;
  let portion := portion_at split_len i p1 p2 in
  let m := intersect_points p1 p2 portion in
  Ok (set_ends_begins m (i - 1) i).

(** [df[split_col].min()] and [.max()] of an empty column are NaN, which
    [int] refuses with a [ValueError]. *)
Definition column_min (c : list Z) : result Z :=
  match c with
  | [] => Raise ValueError
  | x :: r => Ok (fold_left Z.min r x)
  end.

Definition column_max (c : list Z) : result Z :=
  match c with
  | [] => Raise ValueError
  | x :: r => Ok (fold_left Z.max r x)
  end.

Definition get_split_markers (points : list Point) (split_col : string)
  : result (list Marker) :=
  sc <- split_column split_col ;;
  let split_len := fst sc in
  let col := snd sc in
  let df := points in
  min_split <- column_min (map col df) ;;
  max_split <- column_max (map col df) ;;
  for_each (split_marker split_len col df)
           (range_from (min_split + 1) (Z.to_nat (max_split - min_split))).

(** ** Notions of the statements *)

(** The pace the interval formula gives over a distance [d] covered in a
    time [dt]: [unit_length / d * dt]. *)
Definition interval_pace (unit_length d dt : Q) : float :=
  fmul (fdiv (Some unit_length) (Some d)) (Some dt).

(** Equality of float cells up to the representation of a rational. *)
Definition feq (a b : float) : Prop :=
  match a, b with
  | Some x, Some y => x == y
  | None, None => True
  | _, _ => False
  end.

(** Modelled from the spec: [pyft.geo_utils.haversine_distance] is imported by
    both parser modules but its source is missing.  The specification (4.1)
    makes it the great-circle distance of two coordinate pairs and adds: when
    either endpoint is the sentinel for no previous point (series start), the
    result is defined as 0, not NaN.  The trigonometric formula stays a
    parameter, [great_circle]. *)
Definition haversine_distance_spec (great_circle : Q -> Q -> Q -> Q -> Q)
           (lat1 lon1 lat2 lon2 : float) : float :=
  match lat1, lon1, lat2, lon2 with
  | Some a, Some b, Some c, Some d => Some (great_circle a b c d)
  | _, _, _, _ => Some 0
  end.

(** ** Concrete tracks *)

(** A planar stand-in for the great-circle formula, for running the
    definitions on concrete tracks: one degree is 100 km along either axis. *)
Definition flat_metric (lat1 lon1 lat2 lon2 : Q) : Q :=
  100000 * (Qabs (lat1 - lat2) + Qabs (lon1 - lon2)).

Definition track_point (n : Z) (lat : Q) (seconds : Z) : RawPoint :=
  {| point_no := n; track_no := 0; segment_no := 0;
     latitude := lat; longitude := 0; elevation := Some 50;
     time := (seconds * 1000000000)%Z; hr := Some 140%Z; cadence := None |}.

(** Three points, 10 m then 30 m apart, one second apart. *)
Definition short_track : list RawPoint :=
  [track_point 0 0 0; track_point 1 (1 # 10000) 1; track_point 2 (4 # 10000) 2].

(** Four points, 600 m apart, five minutes apart. *)
Definition long_track : list RawPoint :=
  [track_point 0 0 0; track_point 1 (6 # 1000) 300;
   track_point 2 (12 # 1000) 600; track_point 3 (18 # 1000) 900].

(** ** A concrete message stream *)

Definition fit_frame (lat lon : option Z) (elev : Q) (seconds : Z)
           (heart_rate : option Z) : FIT.frame :=
  {| FIT.position_lat := lat; FIT.position_long := lon;
     FIT.altitude := Some elev; FIT.timestamp := Some seconds;
     FIT.heart_rate := heart_rate; FIT.frame_cadence := None |}.

(** Three messages without a position, then one at 45 degrees north,
    22.5 degrees east, then one more without a position. *)
Definition fit_pending : list FIT.frame :=
  [fit_frame None None 100 0 (Some 120%Z);
   fit_frame None None 101 1 None;
   fit_frame (Some (2 ^ 29)%Z) None 102 2 (Some 122%Z)].

Definition fit_trigger : FIT.frame :=
  fit_frame (Some (2 ^ 29)%Z) (Some (2 ^ 28)%Z) 103 3 (Some 125%Z).

Definition fit_rest : list FIT.frame :=
  [fit_frame None None 104 4 (Some 126%Z)].

(** ** Concrete documents, laps and series *)

Definition gpx_file (creator : option string) (type : option string) : GPX.gpx :=
  {| GPX.creator := creator; GPX.tracks := [ {| GPX.type := type |} ] |}.

(** Laps starting at 0, 600 and 1500 seconds. *)
Definition ordered_laps : list Lap :=
  [ {| start_time := 0 |}; {| start_time := 600000000000 |};
    {| start_time := 1500000000000 |} ].

Definition unordered_laps : list Lap :=
  [ {| start_time := 600000000000 |}; {| start_time := 0 |} ].

(** A row of a frame with the given time, cumulative distance and buckets. *)
Definition series_point (seconds : Z) (cumul : Q) : Point :=
  {| initial := track_point 0 0 seconds;
     step_length_2d := None;
     cumul_distance_2d := cumul;
     km := Qfloor (cumul / 1000);
     mile := Qfloor (cumul / MILE);
     run_time := (seconds * 1000000000)%Z;
     km_pace := None; mile_pace := None; kmph := None; mph := None |}.

(** Points every 600 m up to 1800 m, the last one at 2000 seconds. *)
Definition long_series : list Point :=
  [series_point 0 0; series_point 300 600; series_point 600 1200;
   series_point 2000 1800].

(** One step of 2400 m: no point lies in the second kilometre. *)
Definition gap_series : list Point :=
  [series_point 0 0; series_point 300 300; series_point 600 2700].

(** A pace column, in seconds, with a spike in its last cell.  Its mean is
    375 and its sample variance 22500, so that its standard deviation is
    150, which [spike_std] returns. *)
Definition spike_col : list float :=
  [None; Some 300; Some 300; Some 300; Some 600].

Definition spike_std (c : list float) : float := Some 150.

(** ** Further notions of the statements *)

(** A dict holds what a message recorded: the constant track and segment
    numbers, the altitude and the timestamp of the message, and every other
    value the message had. *)
Definition recorded (f : FIT.frame) (d : FIT.data) : Prop :=
  FIT.track_no d = 0%Z
  /\ FIT.segment_no d = 0%Z
  /\ FIT.elevation d = FIT.altitude f
  /\ FIT.time d = FIT.timestamp f
  /\ (forall v, FIT.heart_rate f = Some v -> FIT.hr d = Some v)
  /\ (forall v, FIT.frame_cadence f = Some v -> FIT.cadence d = Some v)
  /\ (forall v, FIT.position_lat f = Some v ->
                FIT.latitude d = Some (inject_Z v / FIT.LATLON_TO_DECIMAL))
  /\ (forall v, FIT.position_long f = Some v ->
                FIT.longitude d = Some (inject_Z v / FIT.LATLON_TO_DECIMAL)).

Definition has_coordinates (d : FIT.data) : Prop :=
  FIT.latitude d <> None /\ FIT.longitude d <> None.

(** A message whose point [_add_point] appends at once. *)
Definition emits (f : FIT.frame) : bool :=
  FIT.accepted f && FIT.has_position f.

(** What holds of the parser after the accepted messages [seen]. *)
Definition parser_invariant (seen : list FIT.frame) (self : FIT.parser) : Prop :=
  FIT._point self = (Z.of_nat (length seen) - 1)%Z
  /\ Forall (fun f => FIT.accepted f = true) seen
  /\ Forall2 recorded seen (FIT._points_data self ++ FIT._backfill self)
  /\ map FIT.point_no (FIT._points_data self ++ FIT._backfill self)
     = range_from 0 (length seen)
  /\ Forall has_coordinates (FIT._points_data self).

(** ** [FITParser._parse]: metadata and frame *)

Module FITSession.

(** A data message with the [sport] field beside those of a sample. *)
Record message : Type := mkMessage {
  fields : FIT.frame;
  sport : option string
}.

(** [self._metadata]. *)
Record metadata : Type := mkMetadata {
  name : option string;
  date_time : option Z;
  description : option string;
  activity_type : option string
}.

Definition empty_metadata : metadata :=
  {| name := None; date_time := None; description := None;
     activity_type := None |}.

(** [GARMIN_TYPES.get(key)]: [None] for a key the dict lacks. *)
Fixpoint dict_get (d : list (string * string)) (key : string) : option string :=
  match d with
  | [] => None
  | (k, v) :: r => if String.eqb k key then Some v else dict_get r key
  end.

(** The two metadata statements of the loop, lines 279-284. *)
Definition note_date_time (md : metadata) (m : message) : metadata :=
  match date_time md, FIT.timestamp (fields m) with
  | None, Some t =>
      {| name := name md; date_time := Some t;
         description := description md; activity_type := activity_type md |}
  | _, _ => md
  end.

Definition note_activity_type (md : metadata) (m : message) : metadata :=
  match activity_type md, sport m with
  | None, Some s =>
      {| name := name md; date_time := date_time md;
         description := description md;
         activity_type := dict_get GPX.GARMIN_TYPES s |}
  | _, _ => md
  end.

Definition session_step (st : metadata * FIT.parser) (m : message)
  : metadata * FIT.parser :=
  (note_activity_type (note_date_time (fst st) m) m,
   FIT.step (snd st) (fields m)).

Definition run (messages : list message) : metadata * FIT.parser :=
  fold_left session_step messages (empty_metadata, FIT.init).

(** A row of [pd.DataFrame(self._points_data)].  The cells read with a
    default are present in every dict [_parse] collects. *)
Definition to_row (d : FIT.data) : RawPoint :=
  {| point_no := FIT.point_no d;
     track_no := FIT.track_no d;
     segment_no := FIT.segment_no d;
     latitude := match FIT.latitude d with Some v => v | None => 0 end;
     longitude := match FIT.longitude d with Some v => v | None => 0 end;
     elevation := FIT.elevation d;
     time := match FIT.time d with Some t => t | None => 0%Z end;
     hr := FIT.hr d;
     cadence := FIT.cadence d |}.

(** [_parse]: the metadata and [self._points]. *)
Definition _parse (haversine_distance : float -> float -> float -> float -> float)
           (speed_measure_interval : Z) (messages : list message)
  : result (metadata * list Point) :=
  let st := run messages in
  points <- infer_points_data haversine_distance speed_measure_interval
                              (map to_row (FIT._points_data (snd st))) ;;
  Ok (fst st, points).

End FITSession.

(** Messages of a session: a sport outside the table, a run, a walk. *)
Definition session_messages : list FITSession.message :=
  [ {| FITSession.fields := fit_frame None None 100 0 None;
       FITSession.sport := Some "cycling"%string |};
    {| FITSession.fields := fit_frame None None 101 1 None;
       FITSession.sport := None |} ].

Definition session_run : FITSession.message :=
  {| FITSession.fields := fit_trigger; FITSession.sport := Some "running"%string |}.

Definition session_walk : FITSession.message :=
  {| FITSession.fields := fit_frame None None 105 5 None;
     FITSession.sport := Some "walking"%string |}.

(** ** [Config.__init__] of pyft/config.py: the days of the week *)

Module Config.
Local Open Scope string_scope.

Definition DAYS_OF_WEEK : list string :=
  ["Sunday"; "Monday"; "Tuesday"; "Wednesday"; "Thursday"; "Friday";
   "Saturday"].

(** [a_list.index(x)]: the first position of [x], a [ValueError] without. *)
Fixpoint index (x : string) (l : list string) : result nat :=
  match l with
  | [] => Raise ValueError
  | y :: r =>
      if String.eqb y x then Ok 0%nat
      else i <- index x r ;; Ok (S i)
  end.

Section WeekStart.
(** [str.capitalize] of Python. *)
Variable capitalize : string -> string.

(** Lines 37-39: [self.week_start] and [self.days_of_week] for the value of
    [week_start] in the ini file. *)
Definition days_of_week (week_start : string) : result (string * list string) :=
  let week_start := capitalize week_start in
  week_start_i <- index week_start DAYS_OF_WEEK ;;
  Ok (week_start,
      (skipn week_start_i DAYS_OF_WEEK ++ firstn week_start_i DAYS_OF_WEEK)%list).
End WeekStart.

End Config.

(** ** [ActivityMetaData.__post_init__] of pyft/activity.py: the speeds *)

(** The exceptions of the functions below, beside those above. *)
Inductive exception : Type :=
| Builtin (e : pyerror)
| ZeroDivisionError
| KeyError (key : string).

Inductive outcome (A : Type) : Type :=
| Return (a : A)
| Throw (e : exception).

Arguments Return {A} a.
Arguments Throw {A} e.

Definition and_then {A B : Type} (o : outcome A) (k : A -> outcome B) : outcome B :=
  match o with
  | Return a => k a
  | Throw e => Throw e
  end.

Module MetaData.

(** The fields lines 69-77 read and set.  A field left to its default of
    [None] is [None]; a timedelta counts nanoseconds and a float that is NaN
    or a timedelta that is NaT is the inner [None]. *)
Record speeds : Type := mkSpeeds {
  distance_2d_km : Q;
  km_pace_mean : option Z;
  distance_2d_mile : option Q;
  kmph_mean : option float;
  mph_mean : option float;
  mile_pace_mean : option float
}.

(** [timedelta.seconds]: the seconds within the day, the days and the
    fraction of a second left out; NaN for NaT. *)
Definition seconds (td : option Z) : float :=
  option_map (fun ns => inject_Z ((ns / 1000000000) mod 86400)) td.

(** Python's [c / x] on floats: a [ZeroDivisionError] for [x] zero, NaN for
    [x] NaN. *)
Definition py_div (c : Q) (x : float) : outcome float :=
  match x with
  | None => Return None
  | Some v => if Qeq_bool v 0 then Throw ZeroDivisionError
              else Return (Some (c / v))
  end.

Definition default_to {A : Type} (field : option A) (value : outcome A)
  : outcome A :=
  match field with
  | Some v => Return v
  | None => value
  end.

(** Lines 69-77; [mile_pace_mean] is held in seconds. *)
Definition post_init_speeds (self : speeds) : outcome speeds :=
  let mile := default_to (distance_2d_mile self)
                         (Return (distance_2d_km self * 1000 / MILE)) in
  and_then mile (fun distance_2d_mile =>
  and_then (default_to (kmph_mean self)
                       (py_div 3600 (seconds (km_pace_mean self))))
           (fun kmph_mean =>
  and_then (default_to (mph_mean self)
                       (Return (option_map (fun v => v / MILE) kmph_mean)))
           (fun mph_mean =>
  and_then (default_to (mile_pace_mean self) (py_div 60 mph_mean))
           (fun mile_pace_mean =>
  Return {| distance_2d_km := distance_2d_km self;
            km_pace_mean := km_pace_mean self;
            distance_2d_mile := Some distance_2d_mile;
            kmph_mean := Some kmph_mean;
            mph_mean := Some mph_mean;
            mile_pace_mean := Some mile_pace_mean |})))).

(** The fields of an activity built from a file: only the distance and the
    mean pace are given. *)
Definition from_points (distance_km : Q) (pace : option Z) : speeds :=
  {| distance_2d_km := distance_km; km_pace_mean := pace;
     distance_2d_mile := None; kmph_mean := None; mph_mean := None;
     mile_pace_mean := None |}.

End MetaData.

(** ** [BaseParser.infer_points_data] of pyft/parse/parsers.py, in full *)

(** A row of the frame this earlier version returns. *)
Record LegacyPoint : Type := mkLegacyPoint {
  legacy_initial : RawPoint;
  legacy_step_length_2d : Q;
  legacy_cumul_distance_2d : Q;
  legacy_km : Z;
  legacy_mile : Z;
  legacy_km_pace : Q;
  legacy_mile_pace : float;
  legacy_kmph : zfloat;
  legacy_mph : zfloat;
  legacy_run_time : Z
}.

(** [3600 / seconds] on a float column: infinite for a pace of zero, which
    [fillna(0)] leaves alone. *)
Definition legacy_kmph_cell (pace : Q) : zfloat :=
  let seconds := pace / 1000000000 in
  if Qeq_bool seconds 0 then Infinite else Finite (3600 / seconds).

Definition zfloat_div (z : zfloat) (c : Q) : zfloat :=
  match z with
  | Finite q => Finite (q / c)
  | Infinite => Infinite
  | NotANumber => NotANumber
  end.

Section LegacyFrame.
Variable haversine_distance : float -> float -> float -> float -> float.
Variable std : list float -> float.

(** The row [i] of the frame after [dropna] (line 49), with the columns of
    lines 50-52, or nothing when one of its cells is missing: the optional
    initial columns, the previous latitude, longitude and time, the step
    length, the corrected pace. *)
Definition legacy_row (df : list RawPoint) (i : nat) (r : RawPoint)
  : option LegacyPoint :=
  let lat := map (fun r => Some (latitude r)) df in
  let lon := map (fun r => Some (longitude r)) df in
  let prev_lat := shift 1 None lat in
  let prev_lon := shift 1 None lon in
  let step := step_col haversine_distance df in
  let cumul := cumul_col haversine_distance df in
  let prev_time := shift_na 1 (map time df) in
  let km_pace_c := legacy_corrected_km_pace haversine_distance std df in
  match elevation r, hr r, cadence r,
        nth i prev_lat None, nth i prev_lon None,
        nth i step None, nth i prev_time None, nth i km_pace_c None with
  | Some _, Some _, Some _, Some _, Some _, Some s, Some pt, Some pace =>
      Some {| legacy_initial := r;
              legacy_step_length_2d := s;
              legacy_cumul_distance_2d := nth i cumul 0;
              legacy_km := bucket 1000 (nth i cumul 0);
              legacy_mile := bucket MILE (nth i cumul 0);
              legacy_km_pace := pace;
              legacy_mile_pace :=
                fmul (fdiv (Some MILE) (Some s)) (tsub (Some (time r)) (Some pt));
              legacy_kmph := legacy_kmph_cell pace;
              legacy_mph := zfloat_div (legacy_kmph_cell pace) (MILE / 1000);
              legacy_run_time := 0 |}
  | _, _, _, _, _, _, _, _ => None
  end.

Definition legacy_kept (df : list RawPoint) : list LegacyPoint :=
  flat_map (fun o => match o with Some p => [p] | None => [] end)
           (mapi_from (legacy_row df) 0 df).

Definition set_run_time (first : LegacyPoint) (p : LegacyPoint) : LegacyPoint :=
  {| legacy_initial := legacy_initial p;
     legacy_step_length_2d := legacy_step_length_2d p;
     legacy_cumul_distance_2d := legacy_cumul_distance_2d p;
     legacy_km := legacy_km p;
     legacy_mile := legacy_mile p;
     legacy_km_pace := legacy_km_pace p;
     legacy_mile_pace := legacy_mile_pace p;
     legacy_kmph := legacy_kmph p;
     legacy_mph := legacy_mph p;
     legacy_run_time :=
       (time (legacy_initial p) - time (legacy_initial first))%Z |}.

(** Lines 26-55; [df.iloc[0]] (line 53) is read after the rows with a
    missing cell have gone. *)
Definition legacy_infer_points_data (df : list RawPoint)
  : result (list LegacyPoint) :=
  let kept := legacy_kept df in
  first <- iloc_first kept ;;
  Ok (map (set_run_time first) kept).
End LegacyFrame.


(** The same three points with every sensor value. *)
Definition sensor_point (n : Z) (lat : Q) (seconds : Z) : RawPoint :=
  {| point_no := n; track_no := 0; segment_no := 0;
     latitude := lat; longitude := 0; elevation := Some 50;
     time := (seconds * 1000000000)%Z; hr := Some 140%Z;
     cadence := Some 80%Z |}.

Definition sensor_track : list RawPoint :=
  [sensor_point 0 0 0; sensor_point 1 (1 # 10000) 1;
   sensor_point 2 (4 # 10000) 2; sensor_point 3 (5 # 10000) 3].

(** ** [Activity.get_split_summary] of pyft/activity.py *)

(** A row of the summary, [split] being its index.  The mean of the pace
    column, whose treatment by [groupby(...).mean()] depends on the version
    of pandas, is left out; the mean of the time column is overwritten by
    the function itself. *)
Record SplitSummary : Type := mkSplitSummary {
  split : Z;
  mean_cadence : float;
  mean_hr : float;
  mean_elevation : float;
  split_time : float
}.

Definition set_split_time (r : SplitSummary) (t : float) : SplitSummary :=
  {| split := split r;
     mean_cadence := mean_cadence r;
     mean_hr := mean_hr r;
     mean_elevation := mean_elevation r;
     split_time := t |}.

(** [grouped.mean()]: one row per bucket, the buckets in increasing order. *)
Definition grouped_mean (col : Point -> Z) (points : list Point)
  : list SplitSummary :=
  map (fun k =>
         let g := bucket_rows col points k in
         {| split := k;
            mean_cadence := mean (map (fun p => of_int (cadence (initial p))) g);
            mean_hr := mean (map (fun p => of_int (hr (initial p))) g);
            mean_elevation := mean (map (fun p => elevation (initial p)) g);
            split_time := None |})
      (fold_right insert_key [] (map col points)).

(** [summary['time'] = a_series]: the row with index [k] takes the cell the
    series has at label [k], the series being labelled 0, 1, 2, ...; a row
    whose index is no label of the series gets a missing value. *)
Definition align (series : list float) (k : Z) : float :=
  if (0 <=? k)%Z && (k <? Z.of_nat (length series))%Z
  then nth (Z.to_nat k) series None
  else None.

(** [summary.loc[summary.index[-1], 'time'] = t]. *)
Fixpoint set_last_time (summary : list SplitSummary) (t : float)
  : list SplitSummary :=
  match summary with
  | [] => []
  | [r] => [set_split_time r t]
  | r :: rest => r :: set_last_time rest t
  end.

Definition lift {A : Type} (r : result A) : outcome A :=
  match r with
  | Ok a => Return a
  | Raise e => Throw (Builtin e)
  end.

Definition get_split_summary (points : list Point) (split_col : string)
  : outcome (list SplitSummary) :=
  and_then (lift (split_column split_col)) (fun sc =>
  let summary := grouped_mean (snd sc) points in
  and_then (lift (get_split_markers points split_col)) (fun markers =>
  (* the frame of no marker has no column *)
  and_then (match markers with
            | [] => Throw (KeyError "time")
            | _ => Return (map marker_time markers)
            end) (fun split_times =>
  and_then (lift (iloc_first points)) (fun first =>
  let steps :=
    map2 fsub split_times
         (shift 1 (of_int (Some (time (initial first)))) split_times) in
  let summary := map (fun r => set_split_time r (align steps (split r)))
                     summary in
  and_then (lift (iloc_last points)) (fun last =>
  and_then (lift (iloc_last split_times)) (fun last_marker =>
  match summary with
  | [] => Throw (Builtin (IndexError (-1)))
  | _ => Return (set_last_time summary
                   (fsub (of_int (Some (time (initial last)))) last_marker))
  end)))))).
(** ** Facts on columns *)

Section ColumnFacts.
Variables A B C : Type.

Lemma length_shift (periods : Z) (fill : A) (c : list A) :
  length (shift periods fill c) = length c.
Proof.
  unfold shift. destruct (0 <=? periods)%Z;
    rewrite length_app, repeat_length.
  - rewrite length_firstn. lia.
  - rewrite length_skipn. lia.
Qed.

Lemma length_map2 (f : A -> B -> C) (a : list A) (b : list B) :
  length (map2 f a b) = Nat.min (length a) (length b).
Proof.
  revert b. induction a as [|x a IH]; intros [|y b]; simpl; auto.
Qed.

Lemma nth_error_map2 (f : A -> B -> C) (a : list A) (b : list B) i x y :
  nth_error a i = Some x -> nth_error b i = Some y ->
  nth_error (map2 f a b) i = Some (f x y).
Proof.
  revert b i. induction a as [|x0 a IH]; intros [|y0 b] [|i]; simpl;
    try discriminate; try congruence.
  apply IH.
Qed.

Lemma length_mapi_from (f : nat -> A -> B) k (c : list A) :
  length (mapi_from f k c) = length c.
Proof. revert k. induction c; simpl; auto. Qed.

Lemma nth_error_mapi_from (f : nat -> A -> B) (c : list A) k i :
  nth_error (mapi_from f k c) i = option_map (f (k + i)%nat) (nth_error c i).
Proof.
  revert k i. induction c as [|x c IH]; intros k [|i]; simpl; auto.
  - now rewrite Nat.add_0_r.
  - rewrite IH. now rewrite Nat.add_succ_r.
Qed.

Lemma map_mapi_from (g : B -> C) (f : nat -> A -> B) k (c : list A) :
  map g (mapi_from f k c) = mapi_from (fun i x => g (f i x)) k c.
Proof. revert k. induction c; simpl; intros; f_equal; auto. Qed.

Lemma mapi_from_nth (col : list B) (d : B) :
  forall (c : list A) (pre : list B),
    length c = length col ->
    mapi_from (fun i _ => nth i (pre ++ col) d) (length pre) c = col.
Proof.
  induction col as [|y col IH]; intros [|x c] pre Hlen; simpl in *;
    try discriminate; auto.
  f_equal.
  - rewrite app_nth2, Nat.sub_diag; auto.
  - specialize (IH c (pre ++ [y])).
    rewrite <- app_assoc, length_app, Nat.add_1_r in IH. simpl in IH.
    apply IH. lia.
Qed.

Lemma mapi_nth (col : list B) (d : B) (c : list A) :
  length c = length col ->
  mapi_from (fun i _ => nth i col d) 0 c = col.
Proof. intros H. exact (mapi_from_nth col d c [] H). Qed.

(** A shifted-down cell holds the value [periods] rows above it. *)
Lemma nth_error_shift_na (n : nat) (c : list A) i :
  (i < length c)%nat ->
  nth_error (shift_na (Z.of_nat n) c) i =
    Some (if (i <? n)%nat then None else nth_error c (i - n)).
Proof.
  intros Hi. unfold shift_na, shift.
  assert (Hp : (0 <=? Z.of_nat n)%Z = true) by (apply Z.leb_le; lia).
  rewrite Hp, Nat2Z.id, length_map.
  destruct (Nat.ltb_spec i n) as [Hlt|Hge].
  - rewrite nth_error_app1 by (rewrite repeat_length; lia).
    apply nth_error_repeat. lia.
  - rewrite nth_error_app2 by (rewrite repeat_length; lia).
    rewrite repeat_length, Nat.min_l by lia.
    rewrite nth_error_firstn.
    assert (Hb : (i - n <? length c - n)%nat = true) by (apply Nat.ltb_lt; lia).
    rewrite Hb, nth_error_map.
    destruct (nth_error c (i - n)) eqn:E; auto.
    apply nth_error_None in E. lia.
Qed.
End ColumnFacts.

(** ** Facts on running sums *)

Lemma Forall_map2 {A B C : Type} (P : C -> Prop) (f : A -> B -> C) :
  (forall x y, P (f x y)) -> forall a b, Forall P (map2 f a b).
Proof.
  intros Hf a. induction a as [|x a IH]; intros [|y b]; simpl; constructor; auto.
Qed.

Lemma StronglySorted_map {A B : Type} (R : A -> A -> Prop) (R' : B -> B -> Prop)
      (f : A -> B) :
  (forall x y, R x y -> R' (f x) (f y)) ->
  forall l, StronglySorted R l -> StronglySorted R' (map f l).
Proof.
  intros Hf l Hl. induction Hl as [|x l Hl IH Hx]; simpl; constructor; auto.
  rewrite Forall_forall in *. intros y Hy.
  apply in_map_iff in Hy. destruct Hy as [z [<- Hz]]. auto.
Qed.

Lemma cumsum_from_ge (acc : Q) (c : list Q) :
  Forall (Qle 0) c -> Forall (Qle acc) (cumsum_from acc c).
Proof.
  revert acc. induction c as [|x c IH]; intros acc Hc; simpl; constructor.
  - inversion Hc; subst. lra.
  - inversion Hc as [|? ? Hx Hr]; subst.
    specialize (IH (acc + x) Hr).
    eapply Forall_impl; [|exact IH]. simpl. intros y Hy. lra.
Qed.

Lemma cumsum_from_sorted (acc : Q) (c : list Q) :
  Forall (Qle 0) c -> StronglySorted Qle (cumsum_from acc c).
Proof.
  revert acc. induction c as [|x c IH]; intros acc Hc; simpl; constructor;
    inversion Hc; subst; auto using cumsum_from_ge.
Qed.

Lemma cumsum_sorted (c : list Q) :
  Forall (Qle 0) c -> StronglySorted Qle (cumsum c).
Proof.
  destruct c as [|x c]; simpl; intros Hc; constructor;
    inversion Hc; subst; auto using cumsum_from_ge, cumsum_from_sorted.
Qed.

Lemma length_cumsum_from (acc : Q) (c : list Q) :
  length (cumsum_from acc c) = length c.
Proof. revert acc. induction c; simpl; auto. Qed.

Lemma length_cumsum (c : list Q) : length (cumsum c) = length c.
Proof. destruct c; simpl; auto using length_cumsum_from. Qed.

Lemma last_cumsum_from (acc d : Q) (c : list Q) :
  last (cumsum_from acc c) d == match c with [] => d | _ => acc + Qsum c end.
Proof.
  revert acc d. induction c as [|x c IH]; intros acc d; [reflexivity|].
  change (cumsum_from acc (x :: c)) with ((acc + x) :: cumsum_from (acc + x) c).
  destruct c as [|y c].
  - simpl. lra.
  - specialize (IH (acc + x) d).
    change (last ((acc + x) :: cumsum_from (acc + x) (y :: c)) d)
      with (last (cumsum_from (acc + x) (y :: c)) d).
    rewrite IH. simpl. lra.
Qed.

Lemma last_cumsum (c : list Q) : last (cumsum c) 0 == Qsum c.
Proof.
  destruct c as [|x c]; [reflexivity|].
  destruct c as [|y c].
  - simpl. lra.
  - change (last (cumsum (x :: y :: c)) 0)
      with (last (cumsum_from x (y :: c)) 0).
    rewrite last_cumsum_from. simpl. lra.
Qed.

(** ** The columns of the frame [infer_points_data] returns *)

Section InferFacts.
Variable haversine_distance : float -> float -> float -> float -> float.
Variable N : Z.

Local Abbreviation infer := (infer_points_data haversine_distance N).
Local Abbreviation steps := (step_col haversine_distance).
Local Abbreviation cumuls := (cumul_col haversine_distance).

Lemma length_step_col df : length (steps df) = length df.
Proof.
  unfold step_col, distance_2d.
  rewrite length_map2, !length_combine, !length_shift, !length_map. lia.
Qed.

Lemma length_cumul_col df : length (cumuls df) = length df.
Proof.
  unfold cumul_col, fillna. now rewrite length_cumsum, length_map, length_step_col.
Qed.

Lemma length_time_delta_col df :
  length (time_delta_col N df) = length df.
Proof.
  unfold time_delta_col, shift_na.
  rewrite length_map2, length_shift, !length_map. lia.
Qed.

Lemma length_interval_distance_col df :
  length (interval_distance_col haversine_distance N df) = length df.
Proof.
  unfold interval_distance_col, shift_na.
  rewrite length_map2, length_shift, !length_map, length_cumul_col. lia.
Qed.

Lemma length_km_pace_col df :
  length (km_pace_col haversine_distance N df) = length df.
Proof.
  unfold km_pace_col.
  rewrite length_map2, length_map, length_interval_distance_col,
    length_time_delta_col. lia.
Qed.

Lemma length_mile_pace_col df :
  length (mile_pace_col haversine_distance N df) = length df.
Proof.
  unfold mile_pace_col.
  rewrite length_map2, length_map, length_step_col, length_time_delta_col. lia.
Qed.

Lemma infer_nonempty r df : exists rows, infer (r :: df) = Ok rows.
Proof. unfold infer_points_data. simpl. eauto. Qed.

Lemma infer_columns df rows :
  infer df = Ok rows ->
  map initial rows = df
  /\ map step_length_2d rows = steps df
  /\ map cumul_distance_2d rows = cumuls df
  /\ map km rows = map (bucket 1000) (cumuls df)
  /\ map mile rows = map (bucket MILE) (cumuls df)
  /\ map km_pace rows = km_pace_col haversine_distance N df
  /\ map mile_pace rows = mile_pace_col haversine_distance N df.
Proof.
  unfold infer_points_data. destruct df as [|r df]; [discriminate|].
  intros H.
  apply (f_equal (fun x => match x with Ok a => a | Raise _ => [] end)) in H.
  cbv beta iota zeta delta [bind iloc_first] in H. subst rows.
  rewrite !map_mapi_from. cbn [initial step_length_2d cumul_distance_2d km mile
                                 km_pace mile_pace].
  repeat split.
  - generalize (r :: df) 0%nat. induction l; simpl; intros; f_equal; auto.
  - apply mapi_nth. now rewrite length_step_col.
  - apply mapi_nth. now rewrite length_cumul_col.
  - apply mapi_nth. now rewrite length_map, length_cumul_col.
  - apply mapi_nth. now rewrite length_map, length_cumul_col.
  - apply mapi_nth. now rewrite length_km_pace_col.
  - apply mapi_nth. now rewrite length_mile_pace_col.
Qed.
End InferFacts.

(** ** Distance and bucket columns *)

(** Every row [infer_points_data] returns has its two buckets by floor
    division of its cumulative distance. *)
Lemma infer_buckets_floor
      (haversine_distance : float -> float -> float -> float -> float)
      (N : Z) df rows :
  infer_points_data haversine_distance N df = Ok rows ->
  Forall (fun p => km p = Qfloor (cumul_distance_2d p / 1000)
                   /\ mile p = Qfloor (cumul_distance_2d p / MILE)) rows.
Proof.
  intros H. destruct (infer_columns _ _ _ H)
    as (_ & _ & Hcumul & Hkm & Hmile & _).
  rewrite <- Hcumul in Hkm, Hmile. clear - Hkm Hmile.
  induction rows as [|p rows IH]; constructor.
  - simpl in Hkm, Hmile. injection Hkm as -> _. injection Hmile as -> _.
    split; reflexivity.
  - simpl in Hkm, Hmile. injection Hkm as _ Hkm. injection Hmile as _ Hmile.
    auto.
Qed.

Section DistanceInvariants.
Variable haversine_distance : float -> float -> float -> float -> float.
Variable N : Z.

(** A distance is never negative. *)
Hypothesis haversine_nonneg :
  forall lat1 lon1 lat2 lon2 d,
    haversine_distance lat1 lon1 lat2 lon2 = Some d -> 0 <= d.

Lemma step_col_nonneg df :
  Forall (Qle 0) (fillna 0 (step_col haversine_distance df)).
Proof.
  unfold fillna, step_col, distance_2d. rewrite Forall_map.
  apply Forall_map2. intros [a b] [c d]. simpl.
  destruct (haversine_distance a b c d) eqn:E; [eauto | lra].
Qed.

Lemma bucket_mono (unit_length x y : Q) :
  0 < unit_length -> x <= y -> (bucket unit_length x <= bucket unit_length y)%Z.
Proof.
  intros Hu Hxy. unfold bucket. apply Qfloor_resp_le.
  unfold Qdiv. apply Qmult_le_compat_r; auto.
  apply Qlt_le_weak, Qinv_lt_0_compat, Hu.
Qed.

(** C5.  In the frame [infer_points_data] returns, the cumulative distance
    never decreases along the series, the step distances add up to the last
    cumulative distance, every km bucket is [floor (cumul / 1000)] and every
    mile bucket [floor (cumul / 1609.344)], and neither bucket column ever
    decreases. *)
Theorem infer_points_data_distance_invariants df rows :
  infer_points_data haversine_distance N df = Ok rows ->
  StronglySorted Qle (map cumul_distance_2d rows)
  /\ sum_skipna (map step_length_2d rows) == last (map cumul_distance_2d rows) 0
  /\ Forall (fun p => km p = Qfloor (cumul_distance_2d p / 1000)
                      /\ mile p = Qfloor (cumul_distance_2d p / MILE)) rows
  /\ StronglySorted Z.le (map km rows)
  /\ StronglySorted Z.le (map mile rows).
Proof.
  intros H. destruct (infer_columns _ _ _ H)
    as (_ & Hstep & Hcumul & Hkm & Hmile & _).
  assert (Hsorted : StronglySorted Qle (map cumul_distance_2d rows)).
  { rewrite Hcumul. apply cumsum_sorted, step_col_nonneg. }
  split; [exact Hsorted|]. split.
  { rewrite Hstep, Hcumul. unfold sum_skipna, cumul_col.
    symmetry. apply last_cumsum. }
  split; [exact (infer_buckets_floor _ _ _ H)|].
  rewrite Hkm, Hmile, <- Hcumul. split.
  - apply StronglySorted_map with (R := Qle); auto.
    intros x y. apply bucket_mono. reflexivity.
  - apply StronglySorted_map with (R := Qle); auto.
    intros x y. apply bucket_mono. reflexivity.
Qed.
End DistanceInvariants.

Lemma flat_metric_nonneg lat1 lon1 lat2 lon2 d :
  haversine_distance_spec flat_metric lat1 lon1 lat2 lon2 = Some d -> 0 <= d.
Proof.
  unfold haversine_distance_spec, flat_metric.
  destruct lat1 as [a|], lon1 as [b|], lat2 as [c|], lon2 as [e|];
    intros H; injection H as <-; try lra.
  pose proof (Qabs_nonneg (a - c)). pose proof (Qabs_nonneg (b - e)).
  apply Qmult_le_0_compat; [discriminate|].
  apply (Qplus_le_compat 0 _ 0 _); assumption.
Qed.

Lemma infer_points_data_distance_invariants_witness :
  exists rows,
    infer_points_data (haversine_distance_spec flat_metric) 1 long_track = Ok rows
    /\ StronglySorted Qle (map cumul_distance_2d rows)
    /\ sum_skipna (map step_length_2d rows) == last (map cumul_distance_2d rows) 0
    /\ Forall (fun p => km p = Qfloor (cumul_distance_2d p / 1000)
                        /\ mile p = Qfloor (cumul_distance_2d p / MILE)) rows
    /\ StronglySorted Z.le (map km rows)
    /\ StronglySorted Z.le (map mile rows).
Proof.
  eexists. split; [reflexivity|].
  apply (infer_points_data_distance_invariants
           (haversine_distance_spec flat_metric) 1 flat_metric_nonneg long_track).
  reflexivity.
Defined.

Example long_track_buckets :
  match infer_points_data (haversine_distance_spec flat_metric) 1 long_track with
  | Ok rows => map km rows = [0; 0; 1; 1]%Z /\ map mile rows = [0; 0; 0; 1]%Z
  | Raise _ => False
  end.
Proof. vm_compute. split; reflexivity. Qed.

(** ** The first point *)

(** C7.  With the distance function the specification describes (0 when an
    endpoint is the missing previous point), the first point of every
    non-empty series has step distance 0, not a missing value, and
    cumulative distance 0. *)
Theorem first_point_step_distance_zero
        (great_circle : Q -> Q -> Q -> Q -> Q) (N : Z) (r : RawPoint) df :
  exists rows p,
    infer_points_data (haversine_distance_spec great_circle) N (r :: df) = Ok rows
    /\ nth_error rows 0 = Some p
    /\ initial p = r
    /\ step_length_2d p = Some 0
    /\ cumul_distance_2d p = 0.
Proof.
  eexists. eexists. split; [reflexivity|].
  cbn [mapi_from nth_error]. split; [reflexivity|].
  cbn [initial step_length_2d cumul_distance_2d]. split; [reflexivity|].
  split; reflexivity.
Qed.

(** Whatever the distance function returns for the missing previous point,
    [fillna(0)] makes the first cumulative distance 0 when that value is
    missing. *)
Lemma first_point_cumul_fillna
      (haversine_distance : float -> float -> float -> float -> float)
      (N : Z) (r : RawPoint) df rows p :
  infer_points_data haversine_distance N (r :: df) = Ok rows ->
  nth_error rows 0 = Some p ->
  step_length_2d p
    = haversine_distance (Some (latitude r)) (Some (longitude r)) None None
  /\ cumul_distance_2d p
     = match step_length_2d p with Some d => d | None => 0 end.
Proof.
  intros H Hp.
  apply (f_equal (fun x => match x with Ok a => a | Raise _ => [] end)) in H.
  cbv beta iota zeta delta [bind iloc_first] in H. subst rows.
  cbn [mapi_from nth_error] in Hp. injection Hp as <-.
  split; reflexivity.
Qed.

(** ** Pace columns *)

Section PaceFacts.
Variable haversine_distance : float -> float -> float -> float -> float.
Variable n : nat.

Local Abbreviation infer := (infer_points_data haversine_distance (Z.of_nat n)).

Lemma fmul_None_r (a : float) : fmul a None = None.
Proof. destruct a; reflexivity. Qed.

(** What the two pace cells of row [i] hold: nothing below the interval;
    from the interval on, [km_pace] divides by the distance covered since row
    [i - n], while [mile_pace] divides by the length of the last step. *)
Lemma pace_cells df rows i p :
  infer df = Ok rows ->
  nth_error rows i = Some p ->
  if (i <? n)%nat then km_pace p = None /\ mile_pace p = None
  else exists q,
      nth_error rows (i - n) = Some q
      /\ km_pace p
         = interval_pace 1000 (cumul_distance_2d p - cumul_distance_2d q)
                         (inject_Z (time (initial p) - time (initial q)))
      /\ mile_pace p
         = fmul (fdiv (Some MILE) (step_length_2d p))
                (Some (inject_Z (time (initial p) - time (initial q)))).
Proof.
  intros H Hp.
  destruct (infer_columns _ _ _ H)
    as (Hinit & Hstep & Hcumul & _ & _ & Hkp & Hmp).
  assert (Hi : (i < length rows)%nat) by (apply nth_error_Some; congruence).
  assert (Hc : nth_error (cumul_col haversine_distance df) i
               = Some (cumul_distance_2d p))
    by (rewrite <- Hcumul, nth_error_map, Hp; reflexivity).
  assert (Ht : nth_error (map time df) i = Some (time (initial p)))
    by (rewrite <- Hinit, !nth_error_map, Hp; reflexivity).
  assert (Hs : nth_error (step_col haversine_distance df) i
               = Some (step_length_2d p))
    by (rewrite <- Hstep, nth_error_map, Hp; reflexivity).
  assert (Hdt : nth_error (time_delta_col (Z.of_nat n) df) i
                = Some (tsub (Some (time (initial p)))
                             (if (i <? n)%nat then None
                              else nth_error (map time df) (i - n)))).
  { unfold time_delta_col. apply nth_error_map2.
    - rewrite nth_error_map, Ht. reflexivity.
    - apply nth_error_shift_na. rewrite <- Hinit, !length_map. exact Hi. }
  assert (Hd : nth_error (interval_distance_col haversine_distance (Z.of_nat n) df) i
               = Some (fsub (Some (cumul_distance_2d p))
                            (if (i <? n)%nat then None
                             else nth_error (cumul_col haversine_distance df)
                                            (i - n)))).
  { unfold interval_distance_col. apply nth_error_map2.
    - rewrite nth_error_map, Hc. reflexivity.
    - apply nth_error_shift_na. rewrite <- Hcumul, length_map. exact Hi. }
  assert (Hk : nth_error (km_pace_col haversine_distance (Z.of_nat n) df) i
               = Some (km_pace p))
    by (rewrite <- Hkp, nth_error_map, Hp; reflexivity).
  assert (Hm : nth_error (mile_pace_col haversine_distance (Z.of_nat n) df) i
               = Some (mile_pace p))
    by (rewrite <- Hmp, nth_error_map, Hp; reflexivity).
  unfold km_pace_col in Hk. unfold mile_pace_col in Hm.
  erewrite nth_error_map2 in Hk;
    [| rewrite nth_error_map, Hd; reflexivity | exact Hdt].
  erewrite nth_error_map2 in Hm;
    [| rewrite nth_error_map, Hs; reflexivity | exact Hdt].
  injection Hk as Hk. injection Hm as Hm.
  destruct (Nat.ltb_spec i n) as [Hlt|Hge].
  - split.
    + rewrite <- Hk. reflexivity.
    + rewrite <- Hm. cbn [tsub]. apply fmul_None_r.
  - destruct (nth_error rows (i - n)) as [q|] eqn:Hq.
    2:{ apply nth_error_None in Hq. lia. }
    exists q. split; [reflexivity|].
    assert (Hcq : nth_error (cumul_col haversine_distance df) (i - n)
                  = Some (cumul_distance_2d q))
      by (rewrite <- Hcumul, nth_error_map, Hq; reflexivity).
    assert (Htq : nth_error (map time df) (i - n) = Some (time (initial q)))
      by (rewrite <- Hinit, !nth_error_map, Hq; reflexivity).
    rewrite Hcq, Htq in *. split.
    + rewrite <- Hk. reflexivity.
    + rewrite <- Hm. reflexivity.
Qed.
End PaceFacts.

(** C1.  On [short_track] with a pace interval of two points the km pace of
    the third point follows the interval formula over the 40 m covered since
    the first point, but its mile pace is [1609.344 / 30 * dt], over the 30 m
    of the last step alone, and differs from what the interval formula gives. *)
Theorem mile_pace_divides_by_step_length :
  exists rows p q,
    infer_points_data (haversine_distance_spec flat_metric) 2 short_track = Ok rows
    /\ nth_error rows 2 = Some p /\ nth_error rows 0 = Some q
    /\ cumul_distance_2d p - cumul_distance_2d q == 40
    /\ feq (step_length_2d p) (Some 30)
    /\ feq (km_pace p)
           (interval_pace 1000 (cumul_distance_2d p - cumul_distance_2d q)
                          (inject_Z (time (initial p) - time (initial q))))
    /\ feq (mile_pace p)
           (interval_pace MILE 30 (inject_Z (time (initial p) - time (initial q))))
    /\ ~ feq (mile_pace p)
           (interval_pace MILE (cumul_distance_2d p - cumul_distance_2d q)
                          (inject_Z (time (initial p) - time (initial q)))).
Proof.
  eexists. eexists. eexists.
  split; [reflexivity|]. split; [reflexivity|]. split; [reflexivity|].
  vm_compute. repeat split; intros; discriminate.
Qed.

(** ** The outlier pass *)

Section ShiftFacts.
Variable A : Type.

Lemma nth_error_shift_1 (fill : A) (c : list A) i :
  (i < length c)%nat ->
  nth_error (shift 1 fill c) i
  = Some (match i with O => fill | S j => nth j c fill end).
Proof.
  intros Hi. unfold shift.
  change (0 <=? 1)%Z with true. change (Z.to_nat 1) with 1%nat. cbv iota zeta.
  rewrite Nat.min_l by lia.
  destruct i as [|j]; [reflexivity|].
  rewrite nth_error_app2 by (rewrite repeat_length; lia).
  rewrite repeat_length, nth_error_firstn.
  assert (Hb : (S j - 1 <? length c - 1)%nat = true) by (apply Nat.ltb_lt; lia).
  rewrite Hb. replace (S j - 1)%nat with j by lia.
  apply nth_error_nth'. lia.
Qed.

Lemma nth_error_shift_m1 (fill : A) (c : list A) i :
  (i < length c)%nat ->
  nth_error (shift (-1) fill c) i
  = Some (if (S i <? length c)%nat then nth (S i) c fill else fill).
Proof.
  intros Hi. unfold shift.
  change (0 <=? -1)%Z with false. change (Z.to_nat (- -1)) with 1%nat.
  cbv iota zeta. rewrite Nat.min_l by lia.
  destruct (Nat.ltb_spec (S i) (length c)) as [Hlt|Hge].
  - rewrite nth_error_app1 by (rewrite length_skipn; lia).
    rewrite nth_error_skipn. apply nth_error_nth'. lia.
  - rewrite nth_error_app2 by (rewrite length_skipn; lia).
    rewrite length_skipn. replace (i - (length c - 1))%nat with 0%nat by lia.
    reflexivity.
Qed.

Lemma nth_error_where (c other : list A) (cond : list bool) i x b y :
  nth_error c i = Some x -> nth_error cond i = Some b ->
  nth_error other i = Some y ->
  nth_error (where_ c cond other) i = Some (if b then x else y).
Proof.
  revert cond other i.
  induction c as [|x0 c IH]; intros [|b0 cond] [|y0 other] [|i]; simpl;
    try discriminate.
  - intros [= ->] [= ->] [= ->]. reflexivity.
  - apply IH.
Qed.
End ShiftFacts.

Lemma abs_ge_1_not_lt (z : zfloat) : abs_ge_1 z = true -> abs_lt_1 z = false.
Proof. destruct z; simpl; intros H; try reflexivity. now rewrite H. Qed.

(** C4.  In the outlier pass a cell whose z-score against the mean and the
    standard deviation of the whole column has absolute value at least 1 is
    replaced by the average of the two cells next to it in the column as it
    was before the pass, the column mean standing for the neighbour that the
    first and the last cell lack; a cell whose z-score has absolute value
    below 1 is kept. *)
Theorem correct_outliers_single_pass
        (std : list float -> float) (col : list float) i (x : float) :
  nth_error col i = Some x ->
  let z := zscore_cell x (mean col) (std col) in
  let left := match i with O => mean col | S j => nth j col None end in
  let right := if (S i <? length col)%nat then nth (S i) col None else mean col in
  (abs_ge_1 z = true ->
   nth_error (correct_outliers std col) i = Some (favg left right))
  /\ (abs_lt_1 z = true ->
      nth_error (correct_outliers std col) i = Some x).
Proof.
  intros Hx z left right.
  assert (Hi : (i < length col)%nat) by (apply nth_error_Some; congruence).
  assert (Hz : nth_error (map abs_lt_1 (zscore_col std col)) i
               = Some (abs_lt_1 z)).
  { unfold zscore_col. rewrite !nth_error_map, Hx. reflexivity. }
  assert (Hr : nth_error (rolling_mean_col col) i = Some (favg left right)).
  { unfold rolling_mean_col. apply nth_error_map2.
    - rewrite nth_error_shift_1 by exact Hi. subst left.
      destruct i as [|j]; [reflexivity|].
      f_equal. apply nth_indep. lia.
    - rewrite nth_error_shift_m1 by exact Hi. subst right.
      destruct (Nat.ltb_spec (S i) (length col)); [|reflexivity].
      f_equal. apply nth_indep. lia. }
  unfold correct_outliers.
  rewrite (nth_error_where _ _ _ _ Hx Hz Hr).
  split; intros H.
  - now rewrite (abs_ge_1_not_lt _ H).
  - now rewrite H.
Qed.

(** ** The outlier pass on a column with a spike *)

Example spike_col_moments :
  feq (mean spike_col) (Some 375)
  /\ Qsum (map (fun x => (x - 375) * (x - 375)) (present spike_col)) / 3
     == 150 * 150.
Proof. split; reflexivity. Qed.

Lemma correct_outliers_single_pass_witness :
  nth_error (correct_outliers spike_std spike_col) 4
  = Some (favg (Some 300) (mean spike_col))
  /\ nth_error (correct_outliers spike_std spike_col) 3 = Some (Some 300).
Proof.
  split.
  - apply (proj1 (@correct_outliers_single_pass spike_std spike_col 4 (Some 600)
                    eq_refl)).
    reflexivity.
  - apply (proj2 (@correct_outliers_single_pass spike_std spike_col 3 (Some 300)
                    eq_refl)).
    reflexivity.
Defined.

Example correct_outliers_spike :
  Forall2 feq (correct_outliers spike_std spike_col)
          [Some (675 # 2); Some 300; Some 300; Some 300; Some (675 # 2)].
Proof. repeat constructor. Qed.

(** ** The backfill buffer of [FITParser] *)

Section Backfill.
Import FIT.

Lemma fold_pending (pending : list frame) :
  Forall (fun g => accepted g = true /\ has_position g = false) pending ->
  forall self,
    fold_left step pending self
    = {| _point := _point self + Z.of_nat (length pending);
         _points_data := _points_data self;
         _backfill := _backfill self ++ buffer_of (_point self) pending |}.
Proof.
  induction 1 as [|g pending [Hacc Hpos] _ IH]; intros self.
  - destruct self. simpl. now rewrite Z.add_0_r, app_nil_r.
  - assert (Hn : is_none (position_lat g) || is_none (position_long g) = true).
    { unfold has_position in Hpos.
      destruct (position_lat g), (position_long g); simpl in *; congruence. }
    cbn [fold_left]. rewrite IH. unfold step.
    unfold accepted in Hacc. rewrite Hacc. unfold _add_point. rewrite Hn.
    cbn [_point _points_data _backfill buffer_of length].
    rewrite <- app_assoc. f_equal. lia.
Qed.

Lemma fold_rest (rest : list frame) :
  Forall (fun g => has_position g = false) rest ->
  forall self, _points_data (fold_left step rest self) = _points_data self.
Proof.
  induction 1 as [|g rest Hpos _ IH]; intros self; [reflexivity|].
  cbn [fold_left]. rewrite IH. unfold step.
  destruct (negb (is_none (timestamp g)) && negb (is_none (altitude g)));
    [|reflexivity].
  unfold _add_point.
  assert (Hn : is_none (position_lat g) || is_none (position_long g) = true).
  { unfold has_position in Hpos.
    destruct (position_lat g), (position_long g); simpl in *; congruence. }
  now rewrite Hn.
Qed.

Lemma fill_cell_spec {A : Type} (to_add new : option A) :
  fill_cell to_add new = match to_add with Some v => Some v | None => new end.
Proof. destruct to_add, new; reflexivity. Qed.

(** C3.  Messages without a latitude or a longitude are held back; the first
    later message with both makes the parser emit every held-back point, in
    arrival order and with exactly its empty cells taken from that message,
    and then the point of that message itself; points held back after it are
    not in the output when the stream ends. *)
Theorem backfill_rule (self : parser) (pending : list frame) (f : frame)
        (rest : list frame) :
  Forall (fun g => accepted g = true /\ has_position g = false) pending ->
  accepted f = true ->
  has_position f = true ->
  Forall (fun g => has_position g = false) rest ->
  let new := make_data (_point self + Z.of_nat (length pending) + 1)
                       (position_lat f) (position_long f) (altitude f)
                       (timestamp f) (heart_rate f) (frame_cadence f) in
  parse_from self pending = _points_data self
  /\ parse_from self (pending ++ f :: rest)
     = _points_data self
         ++ map (fill_from new) (_backfill self ++ buffer_of (_point self) pending)
         ++ [new]
  /\ forall b,
      point_no (fill_from new b) = point_no b
      /\ track_no (fill_from new b) = track_no b
      /\ segment_no (fill_from new b) = segment_no b
      /\ latitude (fill_from new b)
         = match latitude b with Some v => Some v | None => latitude new end
      /\ longitude (fill_from new b)
         = match longitude b with Some v => Some v | None => longitude new end
      /\ elevation (fill_from new b)
         = match elevation b with Some v => Some v | None => elevation new end
      /\ time (fill_from new b)
         = match time b with Some v => Some v | None => time new end
      /\ hr (fill_from new b)
         = match hr b with Some v => Some v | None => hr new end
      /\ cadence (fill_from new b)
         = match cadence b with Some v => Some v | None => cadence new end.
Proof.
  intros Hpend Hacc Hpos Hrest new. split; [|split].
  - unfold parse_from. now rewrite fold_pending.
  - unfold parse_from. rewrite fold_left_app. cbn [fold_left].
    rewrite fold_rest by exact Hrest.
    rewrite fold_pending by exact Hpend.
    unfold step. unfold accepted in Hacc. rewrite Hacc. unfold _add_point.
    assert (Hn : is_none (position_lat f) || is_none (position_long f) = false).
    { unfold has_position in Hpos.
      destruct (position_lat f), (position_long f); simpl in *; congruence. }
    rewrite Hn. reflexivity.
  - intros b. cbn [fill_from point_no track_no segment_no latitude longitude
                     elevation time hr cadence].
    rewrite !fill_cell_spec. repeat split; reflexivity.
Qed.
End Backfill.

Lemma backfill_rule_witness :
  FIT.parse fit_pending = []
  /\ map (fun d => (FIT.point_no d, FIT.latitude d, FIT.longitude d,
                    FIT.elevation d, FIT.hr d))
         (FIT.parse (fit_pending ++ fit_trigger :: fit_rest))
     = [(0%Z, Some (inject_Z (2 ^ 29) / FIT.LATLON_TO_DECIMAL),
         Some (inject_Z (2 ^ 28) / FIT.LATLON_TO_DECIMAL), Some 100, Some 120%Z);
        (1%Z, Some (inject_Z (2 ^ 29) / FIT.LATLON_TO_DECIMAL),
         Some (inject_Z (2 ^ 28) / FIT.LATLON_TO_DECIMAL), Some 101, Some 125%Z);
        (2%Z, Some (inject_Z (2 ^ 29) / FIT.LATLON_TO_DECIMAL),
         Some (inject_Z (2 ^ 28) / FIT.LATLON_TO_DECIMAL), Some 102, Some 122%Z);
        (3%Z, Some (inject_Z (2 ^ 29) / FIT.LATLON_TO_DECIMAL),
         Some (inject_Z (2 ^ 28) / FIT.LATLON_TO_DECIMAL), Some 103, Some 125%Z)].
Proof.
  assert (Hpend : Forall (fun g => FIT.accepted g = true
                                   /\ FIT.has_position g = false) fit_pending)
    by (repeat constructor).
  assert (Hrest : Forall (fun g => FIT.has_position g = false) fit_rest)
    by (repeat constructor).
  destruct (@backfill_rule FIT.init fit_pending fit_trigger fit_rest
                          Hpend eq_refl eq_refl Hrest) as (H1 & H2 & _).
  split; [exact H1|].
  unfold FIT.parse. rewrite H2. reflexivity.
Defined.

(** ** The activity type of a GPX document *)

Section ActivityType.
Import GPX.
Local Open Scope string_scope.

(** A declared type among run, walk and hike is returned whatever the
    creator. *)
Lemma activity_type_declared c t rest declared :
  type t = Some declared ->
  member (Some declared) ACTIVITY_TYPES = true ->
  activity_type {| creator := c; tracks := t :: rest |} = Ok declared.
Proof.
  intros Ht Hm. unfold activity_type. cbn [tracks]. now rewrite Ht, Hm.
Qed.

(** With a creator, every other type goes through the table of the exporter
    the creator names, and is unknown when there is none. *)
Lemma activity_type_with_creator c t rest :
  member (type t) ACTIVITY_TYPES = false ->
  activity_type {| creator := Some c; tracks := t :: rest |}
  = Ok (if String.prefix "StravaGPX" c then get STRAVA_TYPES (type t) "unknown"
        else if String.prefix "Garmin Connect" c
             then get GARMIN_TYPES (type t) "unknown"
             else "unknown").
Proof.
  destruct t as [tt]. cbn [type]. intros Hm.
  unfold activity_type. cbn [tracks creator type startswith bind].
  destruct tt; [rewrite Hm|]; destruct (String.prefix "StravaGPX" c);
    destruct (String.prefix "Garmin Connect" c); reflexivity.
Qed.

(** Without a creator, every type other than run, walk and hike ends in an
    [AttributeError]. *)
Lemma activity_type_without_creator t rest :
  member (type t) ACTIVITY_TYPES = false ->
  activity_type {| creator := None; tracks := t :: rest |} = Raise AttributeError.
Proof.
  destruct t as [tt]. cbn [type]. intros Hm.
  unfold activity_type. cbn [tracks creator type startswith bind].
  destruct tt; [rewrite Hm|]; reflexivity.
Qed.
Example activity_type_tables :
  map GPX.activity_type
      [gpx_file (Some "StravaGPX Android") (Some "4");
       gpx_file (Some "StravaGPX") (Some "9");
       gpx_file (Some "StravaGPX iPhone") (Some "10");
       gpx_file (Some "StravaGPX") (Some "1");
       gpx_file (Some "Garmin Connect") (Some "hiking");
       gpx_file (Some "Garmin Connect") (Some "running");
       gpx_file (Some "Garmin Connect") (Some "walking");
       gpx_file (Some "Garmin Connect") (Some "9");
       gpx_file (Some "Garmin Connect") None;
       gpx_file (Some "gpx.py") (Some "running");
       gpx_file None (Some "walk")]
  = map Ok ["hike"; "run"; "walk"; "unknown"; "hike"; "run"; "walk"; "unknown";
            "unknown"; "unknown"; "walk"].
Proof. reflexivity. Qed.

(** C8.  A document without a creator attribute whose track type is not one
    of run, walk and hike does not get the type unknown: reading the type
    raises [AttributeError], with or without a track type. *)
Theorem activity_type_absent_creator :
  GPX.activity_type (gpx_file None (Some "cycling")) = Raise AttributeError
  /\ GPX.activity_type (gpx_file None None) = Raise AttributeError.
Proof. split; reflexivity. Qed.
End ActivityType.

(** ** Lap statistics *)

Lemma last_error_cons {A : Type} (x : A) (l : list A) :
  exists y, last_error (x :: l) = Some y.
Proof.
  revert x. induction l as [|z l IH]; intros x; [now exists x|].
  destruct (IH z) as [y Hy]. exists y. exact Hy.
Qed.

Lemma iloc_last_cons {A : Type} (x : A) (l : list A) :
  exists y, iloc_last (x :: l) = Ok y.
Proof.
  unfold iloc_last. destruct (last_error_cons x l) as [y ->]. now exists y.
Qed.

(** What [get_lap_durations] holds for lap [i]: the start of the lap minus
    the start of the next one, or minus the time of the last point for the
    last lap. *)
Lemma get_lap_durations_cell laps points last durations i l :
  iloc_last points = Ok last ->
  get_lap_durations laps points = Ok durations ->
  nth_error laps i = Some l ->
  nth_error durations i
  = Some (start_time l
          - match nth_error laps (S i) with
            | Some next => start_time next
            | None => time (initial last)
            end)%Z.
Proof.
  intros Hlast H Hl. unfold get_lap_durations in H. rewrite Hlast in H.
  cbn [bind] in H. injection H as <-.
  assert (Hi : (i < length (map start_time laps))%nat).
  { rewrite length_map. apply nth_error_Some. congruence. }
  apply nth_error_map2.
  - rewrite nth_error_map, Hl. reflexivity.
  - rewrite nth_error_shift_m1 by exact Hi. f_equal.
    rewrite length_map in *.
    destruct (Nat.ltb_spec (S i) (length laps)) as [Hlt|Hge].
    + destruct (nth_error laps (S i)) as [next|] eqn:E.
      * apply nth_error_nth. rewrite nth_error_map, E. reflexivity.
      * apply nth_error_None in E. lia.
    + destruct (nth_error laps (S i)) as [next|] eqn:E; [|reflexivity].
      assert (S i < length laps)%nat by (apply nth_error_Some; congruence). lia.
Qed.

(** C2.  For laps starting at 0, 600 and 1500 seconds and a series ending at
    2000 seconds, [get_lap_durations] returns -600, -900 and -500 seconds: the
    start of each lap minus the start of the next, where the durations are
    600, 900 and 500 seconds; they add up to -2000 seconds. *)
Theorem get_lap_durations_negated :
  get_lap_durations ordered_laps long_series
  = Ok [-600000000000; -900000000000; -500000000000]%Z
  /\ StronglySorted Z.le (map start_time ordered_laps)
  /\ (fold_right Z.add 0 [-600000000000; -900000000000; -500000000000]
      = -2000000000000)%Z.
Proof.
  split; [reflexivity|]. split; [|reflexivity].
  repeat constructor; discriminate.
Qed.

(** C9, as stated, fails: lap start times out of order make
    [get_lap_durations] return a column, not fail with [SchemaError]. *)
Lemma get_lap_durations_unordered :
  ~ StronglySorted Z.le (map start_time unordered_laps)
  /\ get_lap_durations unordered_laps long_series
     = Ok [600000000000; -2000000000000]%Z
  /\ get_lap_durations unordered_laps long_series <> Raise SchemaError.
Proof.
  split; [|split; [reflexivity | discriminate]].
  intros H. inversion H as [|? ? _ Hall]; subst.
  inversion Hall as [|? ? Hle _]; subst. simpl in Hle. lia.
Qed.

(** C9, amended.  The lap operations do not look at the order of the lap
    start times: over a non-empty series [get_lap_durations] returns one
    cell per lap for every sequence of start times and [get_lap_distances]
    returns, and neither ever fails with [SchemaError]. *)
Theorem lap_operations_ignore_order
        (laps : list Lap) (p : LapPoint) (points : list LapPoint) :
  (exists durations,
      get_lap_durations laps (map lap_point (p :: points)) = Ok durations
      /\ length durations = length laps)
  /\ (exists distances, get_lap_distances (p :: points) = Ok distances)
  /\ (forall series, get_lap_durations laps series <> Raise SchemaError)
  /\ (forall series, get_lap_distances series <> Raise SchemaError).
Proof.
  split; [|split; [|split]].
  - unfold get_lap_durations. cbn [map].
    destruct (iloc_last_cons (lap_point p) (map lap_point points)) as [y ->].
    cbn [bind]. eexists. split; [reflexivity|].
    rewrite length_map2, length_shift, length_map. lia.
  - unfold get_lap_distances.
    destruct (iloc_last_cons p points) as [y ->]. cbn [bind]. eauto.
  - intros series. unfold get_lap_durations, iloc_last.
    destruct (last_error series); cbn [bind]; discriminate.
  - intros series. unfold get_lap_distances, iloc_last.
    destruct (last_error series); cbn [bind]; discriminate.
Qed.

(** ** Split markers *)

Lemma last_error_In {A : Type} (l : list A) (x : A) :
  last_error l = Some x -> In x l.
Proof.
  induction l as [|y l IH]; [discriminate|].
  destruct l as [|z l].
  - intros [= ->]. now left.
  - intros H. right. apply IH. exact H.
Qed.

Lemma iloc_last_In {A : Type} (l : list A) (x : A) :
  iloc_last l = Ok x -> In x l.
Proof.
  unfold iloc_last. destruct (last_error l) eqn:E; [|discriminate].
  intros [= <-]. now apply last_error_In.
Qed.

Lemma iloc_first_In {A : Type} (l : list A) (x : A) :
  iloc_first l = Ok x -> In x l.
Proof. destruct l; [discriminate|]. intros [= <-]. now left. Qed.

Lemma for_each_Ok {A B : Type} (body : A -> result B) (l : list A) ys :
  for_each body l = Ok ys ->
  Forall (fun y => exists x, In x l /\ body x = Ok y) ys.
Proof.
  revert ys. induction l as [|x l IH]; intros ys; cbn [for_each].
  - intros [= <-]. constructor.
  - destruct (body x) as [y|e] eqn:Hx; cbn [bind]; [|discriminate].
    destruct (for_each body l) as [ys'|e]; cbn [bind]; [|discriminate].
    intros [= <-]. constructor.
    + exists x. split; [now left | exact Hx].
    + eapply Forall_impl; [|apply IH; reflexivity].
      cbn beta. intros y' [x' [Hin Hb]]. exists x'. split; [now right | exact Hb].
Qed.

Lemma Qeq_bool_pos (x : Q) : 0 < x -> Qeq_bool x 0 = false.
Proof.
  intros Hx. destruct (Qeq_bool x 0) eqn:E; [|reflexivity].
  apply Qeq_bool_eq in E. lra.
Qed.

Lemma split_column_pos split_col split_len col :
  split_column split_col = Ok (split_len, col) -> 0 < split_len.
Proof.
  unfold split_column.
  destruct (String.eqb split_col "km"); [intros [= <- _]; reflexivity|].
  destruct (String.eqb split_col "mile"); [intros [= <- _]; reflexivity|].
  discriminate.
Qed.

(** The two points around boundary [i] lie on either side of it. *)
Lemma bucket_floor_bounds (split_len c : Q) (i : Z) :
  0 < split_len ->
  (Qfloor (c / split_len) = i ->
   split_len * inject_Z i <= c /\ c < split_len * inject_Z (i + 1)).
Proof.
  intros Hlen Hf.
  pose proof (Qfloor_le (c / split_len)) as Hlo.
  pose proof (Qlt_floor (c / split_len)) as Hhi.
  rewrite Hf in Hlo, Hhi.
  assert (Hc : c / split_len * split_len == c) by (field; lra).
  assert (H1 : inject_Z i * split_len <= c / split_len * split_len)
    by (apply Qmult_le_compat_r; lra).
  assert (H2 : c / split_len * split_len < inject_Z (i + 1) * split_len)
    by (apply Qmult_lt_compat_r; lra).
  rewrite Hc in H1, H2. split; lra.
Qed.

(** C6.  On a series whose bucket column is the floor of the cumulative
    distance over the unit length, every marker [get_split_markers] returns
    comes from the last point [p1] of the bucket it ends and the first point
    [p2] of the bucket it begins, for which [underrun + overrun] is not zero;
    its portion [underrun / (underrun + overrun)] lies between 0 and 1, and
    its interpolated cumulative distance is [begins] times the unit length. *)
Theorem split_markers_on_boundary
        (points : list Point) (split_col : string) (split_len : Q)
        (col : Point -> Z) (markers : list Marker) :
  split_column split_col = Ok (split_len, col) ->
  Forall (fun p => col p = Qfloor (cumul_distance_2d p / split_len)) points ->
  get_split_markers points split_col = Ok markers ->
  Forall (fun m =>
            exists p1 p2 portion,
              iloc_last (bucket_rows col points (begins m - 1)) = Ok p1
              /\ iloc_first (bucket_rows col points (begins m)) = Ok p2
              /\ ~ underrun_at split_len (begins m) p1
                   + overrun_at split_len (begins m) p2 == 0
              /\ portion_at split_len (begins m) p1 p2 = Some portion
              /\ portion == underrun_at split_len (begins m) p1
                            / (underrun_at split_len (begins m) p1
                               + overrun_at split_len (begins m) p2)
              /\ 0 <= portion <= 1
              /\ m = set_ends_begins (intersect_points p1 p2 (Some portion))
                                     (begins m - 1) (begins m)
              /\ feq (marker_cumul_distance_2d m)
                     (Some (inject_Z (begins m) * split_len)))
         markers.
Proof.
  intros Hsc Hfloor H.
  pose proof (split_column_pos _ Hsc) as Hlen.
  unfold get_split_markers in H. rewrite Hsc in H. cbn [bind fst snd] in H.
  destruct (column_min (map col points)) as [lo|]; [|discriminate].
  destruct (column_max (map col points)) as [hi|]; [|discriminate].
  cbn [bind] in H. apply for_each_Ok in H.
  eapply Forall_impl; [|exact H]. cbn beta.
  intros m [i [_ Hm]]. unfold split_marker in Hm.
  destruct (iloc_last (bucket_rows col points (i - 1))) as [p1|] eqn:H1;
    [|discriminate].
  destruct (iloc_first (bucket_rows col points i)) as [p2|] eqn:H2;
    [|discriminate].
  cbn [bind] in Hm. injection Hm as <-.
  cbn [begins set_ends_begins].
  pose proof H1 as Hp1. pose proof H2 as Hp2.
  apply iloc_last_In, filter_In in H1. destruct H1 as [Hin1 Hb1].
  apply iloc_first_In, filter_In in H2. destruct H2 as [Hin2 Hb2].
  apply Z.eqb_eq in Hb1, Hb2.
  rewrite Forall_forall in Hfloor.
  rewrite (Hfloor _ Hin1) in Hb1. rewrite (Hfloor _ Hin2) in Hb2.
  destruct (bucket_floor_bounds (cumul_distance_2d p1) Hlen Hb1) as [_ Hup].
  destruct (bucket_floor_bounds (cumul_distance_2d p2) Hlen Hb2) as [Hlo _].
  replace (i - 1 + 1)%Z with i in Hup by lia.
  set (u := underrun_at split_len i p1) in *.
  set (o := overrun_at split_len i p2) in *.
  assert (Hu : 0 < u) by (subst u; unfold underrun_at; lra).
  assert (Ho : 0 <= o) by (subst o; unfold overrun_at; lra).
  assert (Hs : 0 < u + o) by lra.
  exists p1, p2, (u / (u + o)).
  split; [exact Hp1|]. split; [exact Hp2|].
  assert (Hp : portion_at split_len i p1 p2 = Some (u / (u + o))).
  { unfold portion_at. fold u o. unfold fdiv. now rewrite Qeq_bool_pos. }
  rewrite Hp. fold u o.
  split; [lra|]. split; [reflexivity|]. split; [reflexivity|]. split.
  { split.
    - apply Qle_shift_div_l; lra.
    - apply Qle_shift_div_r; lra. }
  split; [reflexivity|].
  cbn [set_ends_begins intersect_points marker_cumul_distance_2d lerp feq].
  subst u o. unfold underrun_at, overrun_at in *. field. lra.
Qed.

Lemma split_markers_on_boundary_witness :
  exists markers,
    get_split_markers long_series "km" = Ok markers
    /\ map begins markers = [1%Z]
    /\ Forall (fun m =>
                 exists p1 p2 portion,
                   iloc_last (bucket_rows km long_series (begins m - 1)) = Ok p1
                   /\ iloc_first (bucket_rows km long_series (begins m)) = Ok p2
                   /\ ~ underrun_at 1000 (begins m) p1
                        + overrun_at 1000 (begins m) p2 == 0
                   /\ portion_at 1000 (begins m) p1 p2 = Some portion
                   /\ portion == underrun_at 1000 (begins m) p1
                                 / (underrun_at 1000 (begins m) p1
                                    + overrun_at 1000 (begins m) p2)
                   /\ 0 <= portion <= 1
                   /\ m = set_ends_begins (intersect_points p1 p2 (Some portion))
                                          (begins m - 1) (begins m)
                   /\ feq (marker_cumul_distance_2d m)
                          (Some (inject_Z (begins m) * 1000)))
              markers.
Proof.
  eexists. split; [reflexivity|]. split; [reflexivity|].
  apply (@split_markers_on_boundary long_series "km" 1000 km).
  - reflexivity.
  - repeat constructor.
  - reflexivity.
Defined.

(** The marker of the first kilometre of [long_series]: two thirds of the way
    from 600 m to 1200 m, 500 seconds in. *)
Example long_series_marker :
  match get_split_markers long_series "km" with
  | Ok [m] =>
      ends m = 0%Z /\ begins m = 1%Z
      /\ feq (marker_cumul_distance_2d m) (Some 1000)
      /\ feq (marker_time m) (Some 500000000000)
  | _ => False
  end.
Proof. vm_compute. repeat split. Qed.

(** ** Empty buckets *)

Lemma fold_min_spec (r : list Z) (x : Z) :
  In (fold_left Z.min r x) (x :: r)
  /\ Forall (fun y => (fold_left Z.min r x <= y)%Z) (x :: r).
Proof.
  revert x. induction r as [|y r IH]; intros x; cbn [fold_left].
  - split; [now left | repeat constructor; lia].
  - destruct (IH (Z.min x y)) as [Hin Hall]. split.
    + destruct Hin as [Hin|Hin]; [|now right; right].
      rewrite <- Hin. destruct (Z.min_spec x y) as [[_ ->]|[_ ->]];
        [now left | now right; left].
    + inversion Hall as [|? ? Hm Hr]; subst.
      constructor; [lia|]. constructor; [lia|]. exact Hr.
Qed.

Lemma fold_max_spec (r : list Z) (x : Z) :
  In (fold_left Z.max r x) (x :: r)
  /\ Forall (fun y => (y <= fold_left Z.max r x)%Z) (x :: r).
Proof.
  revert x. induction r as [|y r IH]; intros x; cbn [fold_left].
  - split; [now left | repeat constructor; lia].
  - destruct (IH (Z.max x y)) as [Hin Hall]. split.
    + destruct Hin as [Hin|Hin]; [|now right; right].
      rewrite <- Hin. destruct (Z.max_spec x y) as [[_ ->]|[_ ->]];
        [now right; left | now left].
    + inversion Hall as [|? ? Hm Hr]; subst.
      constructor; [lia|]. constructor; [lia|]. exact Hr.
Qed.

Section EmptyBuckets.
Variable split_len : Q.
Variable col : Point -> Z.
Variable df : list Point.

Local Abbreviation rows_of := (bucket_rows col df).
Local Abbreviation body := (split_marker split_len col df).

Lemma bucket_rows_In (v : Z) :
  In v (map col df) -> rows_of v <> [].
Proof.
  intros Hin. apply in_map_iff in Hin. destruct Hin as [p [Hp Hin]].
  intros He. assert (Hf : In p (rows_of v)).
  { apply filter_In. split; [exact Hin|]. apply Z.eqb_eq. exact Hp. }
  rewrite He in Hf. destruct Hf.
Qed.

Lemma column_min_max lo hi :
  column_min (map col df) = Ok lo ->
  column_max (map col df) = Ok hi ->
  rows_of lo <> [] /\ rows_of hi <> [] /\ (lo <= hi)%Z.
Proof.
  unfold column_min, column_max. destruct (map col df) as [|x r] eqn:E;
    [discriminate|].
  intros [= <-] [= <-].
  destruct (fold_min_spec r x) as [Hmin Hle].
  destruct (fold_max_spec r x) as [Hmax Hge].
  rewrite <- E in Hmin, Hmax. split; [|split].
  - now apply bucket_rows_In.
  - now apply bucket_rows_In.
  - inversion Hle; subst. inversion Hge; subst. lia.
Qed.

Lemma iloc_last_nonempty {A : Type} (l : list A) :
  l <> [] -> exists y, iloc_last l = Ok y.
Proof. destruct l as [|x l]; [congruence|]. intros _. apply iloc_last_cons. Qed.

(** The loop, entered with a point in bucket [a - 1], ends well when every
    bucket it visits has a point. *)
Lemma loop_returns (n : nat) :
  forall a,
    rows_of (a - 1) <> [] ->
    (forall i, (a <= i < a + Z.of_nat n)%Z -> rows_of i <> []) ->
    exists markers,
      for_each body (range_from a n) = Ok markers /\ length markers = n.
Proof.
  induction n as [|n IH]; intros a Hprev Hall; [now exists []|].
  cbn [range_from for_each]. unfold split_marker at 1.
  destruct (iloc_last_nonempty Hprev) as [p1 ->]. cbn [bind].
  assert (Ha : rows_of a <> []) by (apply Hall; lia).
  destruct (rows_of a) as [|p2 r] eqn:E; [congruence|].
  cbn [iloc_first bind].
  destruct (IH (a + 1)%Z) as [ms [-> Hlen]].
  - replace (a + 1 - 1)%Z with a by lia. rewrite E. discriminate.
  - intros i Hi. apply Hall. lia.
  - cbn [bind]. eexists. split; [reflexivity|]. simpl. now rewrite Hlen.
Qed.

(** It stops with the [IndexError] of [.iloc[0]] at the first bucket
    without a point. *)
Lemma loop_raises (n : nat) :
  forall a,
    rows_of (a - 1) <> [] ->
    (exists i, (a <= i < a + Z.of_nat n)%Z /\ rows_of i = []) ->
    for_each body (range_from a n) = Raise (IndexError 0).
Proof.
  induction n as [|n IH]; intros a Hprev [i [Hi He]]; [lia|].
  cbn [range_from for_each]. unfold split_marker at 1.
  destruct (iloc_last_nonempty Hprev) as [p1 ->]. cbn [bind].
  destruct (rows_of a) as [|p2 r] eqn:E; [reflexivity|].
  cbn [iloc_first bind]. rewrite (IH (a + 1)%Z); [reflexivity| |].
  - replace (a + 1 - 1)%Z with a by lia. rewrite E. discriminate.
  - exists i. split; [|exact He].
    assert (i <> a) by (intros ->; rewrite E in He; discriminate). lia.
Qed.

(** The selection of [p1] by [.iloc[-1]] never fails in the loop. *)
Lemma loop_never_last (n : nat) :
  forall a,
    rows_of (a - 1) <> [] ->
    for_each body (range_from a n) <> Raise (IndexError (-1)).
Proof.
  induction n as [|n IH]; intros a Hprev; [discriminate|].
  cbn [range_from for_each]. unfold split_marker at 1.
  destruct (iloc_last_nonempty Hprev) as [p1 ->]. cbn [bind].
  destruct (rows_of a) as [|p2 r] eqn:E; [discriminate|].
  cbn [iloc_first bind].
  specialize (IH (a + 1)%Z).
  destruct (for_each body (range_from (a + 1) n)) as [ms|e];
    cbn [bind]; [discriminate|].
  intros [= ->]. apply IH; [|reflexivity].
  replace (a + 1 - 1)%Z with a by lia. rewrite E. discriminate.
Qed.
End EmptyBuckets.

(** C10, as stated, fails: in [gap_series] no point lies in the second
    kilometre, the last point of the first kilometre is found, and the error
    is the one of [.iloc[0]] on the empty bucket, not of [.iloc[-1]]. *)
Lemma split_markers_gap_first_point :
  column_min (map km gap_series) = Ok 0%Z
  /\ column_max (map km gap_series) = Ok 2%Z
  /\ bucket_rows km gap_series 1 = []
  /\ (exists p1, iloc_last (bucket_rows km gap_series 0) = Ok p1)
  /\ iloc_first (bucket_rows km gap_series 1) = Raise (IndexError 0)
  /\ get_split_markers gap_series "km" = Raise (IndexError 0)
  /\ get_split_markers gap_series "km" <> Raise (IndexError (-1)).
Proof.
  repeat (split; [reflexivity|]).
  split; [eexists; reflexivity|].
  repeat (split; [reflexivity|]). discriminate.
Qed.

(** C10, amended.  When some bucket strictly between the least and the
    greatest bucket of the series has no point, [get_split_markers] fails
    with the [IndexError] raised by selecting the first point ([.iloc[0]]) of
    an empty bucket; when every such bucket has a point it returns one marker
    per boundary; selecting a last point ([.iloc[-1]]) never fails. *)
Theorem split_markers_empty_bucket
        (points : list Point) (split_col : string) (split_len : Q)
        (col : Point -> Z) (lo hi : Z) :
  split_column split_col = Ok (split_len, col) ->
  column_min (map col points) = Ok lo ->
  column_max (map col points) = Ok hi ->
  ((exists b, (lo < b < hi)%Z /\ bucket_rows col points b = []) ->
   get_split_markers points split_col = Raise (IndexError 0))
  /\ ((forall b, (lo < b < hi)%Z -> bucket_rows col points b <> []) ->
      exists markers,
        get_split_markers points split_col = Ok markers
        /\ length markers = Z.to_nat (hi - lo))
  /\ get_split_markers points split_col <> Raise (IndexError (-1)).
Proof.
  intros Hsc Hlo Hhi.
  destruct (column_min_max _ _ Hlo Hhi) as (Hmin & Hmax & Hle).
  unfold get_split_markers. rewrite Hsc. cbn [bind fst snd].
  rewrite Hlo, Hhi. cbn [bind].
  assert (Hprev : bucket_rows col points (lo + 1 - 1) <> [])
    by (replace (lo + 1 - 1)%Z with lo by lia; exact Hmin).
  split; [|split].
  - intros [b [Hb He]]. apply loop_raises; [exact Hprev|].
    exists b. split; [lia | exact He].
  - intros Hall. apply loop_returns; [exact Hprev|].
    intros i Hi. destruct (Z.eq_dec i hi) as [->|Hne]; [exact Hmax|].
    apply Hall. lia.
  - apply loop_never_last. exact Hprev.
Qed.

Lemma split_markers_empty_bucket_witness :
  get_split_markers gap_series "km" = Raise (IndexError 0)
  /\ (exists markers,
         get_split_markers long_series "km" = Ok markers
         /\ length markers = 1%nat)
  /\ get_split_markers gap_series "km" <> Raise (IndexError (-1)).
Proof.
  split; [|split].
  - apply (@split_markers_empty_bucket gap_series "km" 1000 km 0 2
             eq_refl eq_refl eq_refl).
    exists 1%Z. split; [lia | reflexivity].
  - apply (@split_markers_empty_bucket long_series "km" 1000 km 0 1
             eq_refl eq_refl eq_refl).
    intros b Hb. lia.
  - apply (@split_markers_empty_bucket gap_series "km" 1000 km 0 2
             eq_refl eq_refl eq_refl).
Defined.

(** * Further properties *)

(** ** The rows of [infer_points_data] *)

Section InferRows.
Variable haversine_distance : float -> float -> float -> float -> float.
Variable N : Z.

Local Abbreviation infer := (infer_points_data haversine_distance N).

Lemma length_kmph_col df : length (kmph_col haversine_distance N df) = length df.
Proof. unfold kmph_col. now rewrite length_map, length_km_pace_col. Qed.

Lemma length_mph_col df : length (mph_col haversine_distance N df) = length df.
Proof. unfold mph_col. now rewrite length_map, length_kmph_col. Qed.

Lemma infer_speed_columns first df rows :
  infer (first :: df) = Ok rows ->
  map run_time rows = map (fun r => (time r - time first)%Z) (first :: df)
  /\ map kmph rows = kmph_col haversine_distance N (first :: df)
  /\ map mph rows = mph_col haversine_distance N (first :: df).
Proof.
  unfold infer_points_data. intros H.
  apply (f_equal (fun x => match x with Ok a => a | Raise _ => [] end)) in H.
  cbv beta iota zeta delta [bind iloc_first] in H. subst rows.
  rewrite !map_mapi_from. cbn [run_time kmph mph].
  repeat split.
  - apply mapi_nth. now rewrite length_map.
  - apply mapi_nth. now rewrite length_kmph_col.
  - apply mapi_nth. now rewrite length_mph_col.
Qed.

(** [infer_points_data] fails, with the [IndexError] of [df.iloc[0]], on the
    frame without rows and on no other; otherwise it returns the rows of the
    frame in their order, the initial columns untouched, each with the time
    elapsed since the first row. *)
Theorem infer_points_data_rows (df : list RawPoint) :
  match df with
  | [] => infer df = Raise (IndexError 0)
  | first :: _ =>
      exists rows,
        infer df = Ok rows
        /\ map initial rows = df
        /\ Forall (fun p => run_time p
                            = (time (initial p) - time first)%Z) rows
  end.
Proof.
  destruct df as [|first df]; [reflexivity|].
  destruct (infer_nonempty haversine_distance N first df) as [rows H].
  exists rows. split; [exact H|].
  destruct (infer_columns _ _ _ H) as (Hinit & _).
  destruct (infer_speed_columns H) as (Hrun & _).
  split; [exact Hinit|].
  rewrite <- Hinit in Hrun. rewrite map_map in Hrun.
  clear - Hrun. induction rows as [|p rows IH]; constructor.
  - simpl in Hrun. now injection Hrun.
  - apply IH. simpl in Hrun. now injection Hrun.
Qed.
End InferRows.

Lemma nth_error_cumsum_from (c : list Q) :
  forall acc i x,
    nth_error (cumsum_from acc c) i = Some x ->
    x == acc + Qsum (firstn (S i) c).
Proof.
  induction c as [|y c IH]; intros acc i x; [destruct i; discriminate|].
  destruct i as [|i]; cbn [cumsum_from nth_error].
  - intros [= <-]. simpl. lra.
  - intros H. apply IH in H. rewrite H.
    change (firstn (S (S i)) (y :: c)) with (y :: firstn (S i) c).
    simpl. lra.
Qed.

Lemma nth_error_cumsum (c : list Q) i x :
  nth_error (cumsum c) i = Some x -> x == Qsum (firstn (S i) c).
Proof.
  destruct c as [|y c]; [destruct i; discriminate|].
  destruct i as [|i]; cbn [cumsum nth_error].
  - intros [= <-]. simpl. lra.
  - intros H. apply nth_error_cumsum_from in H. rewrite H.
    change (firstn (S (S i)) (y :: c)) with (y :: firstn (S i) c).
    simpl. lra.
Qed.

(** The cumulative distance of a row is the sum of the step lengths up to
    and including that row, a missing step counting for nothing. *)
Theorem cumul_distance_prefix_sum
        (haversine_distance : float -> float -> float -> float -> float)
        (N : Z) (df : list RawPoint) (rows : list Point) (i : nat) (p : Point) :
  infer_points_data haversine_distance N df = Ok rows ->
  nth_error rows i = Some p ->
  cumul_distance_2d p == sum_skipna (map step_length_2d (firstn (S i) rows)).
Proof.
  intros H Hp.
  destruct (infer_columns _ _ _ H) as (_ & Hstep & Hcumul & _).
  assert (Hc : nth_error (cumul_col haversine_distance df) i
               = Some (cumul_distance_2d p))
    by (rewrite <- Hcumul, nth_error_map, Hp; reflexivity).
  unfold cumul_col in Hc. apply nth_error_cumsum in Hc. rewrite Hc.
  unfold sum_skipna, fillna. rewrite <- Hstep, <- !firstn_map. reflexivity.
Qed.

Lemma cumul_distance_prefix_sum_witness :
  exists rows p,
    infer_points_data (haversine_distance_spec flat_metric) 1 long_track = Ok rows
    /\ nth_error rows 2 = Some p
    /\ cumul_distance_2d p == 1200
    /\ cumul_distance_2d p == sum_skipna (map step_length_2d (firstn 3 rows)).
Proof.
  eexists. eexists. split; [reflexivity|]. split; [reflexivity|].
  split; [reflexivity|].
  apply (@cumul_distance_prefix_sum (haversine_distance_spec flat_metric) 1
           long_track _ 2 _ eq_refl eq_refl).
Defined.

Lemma pace_cells_witness :
  exists rows p,
    infer_points_data (haversine_distance_spec flat_metric) (Z.of_nat 2)
                      short_track = Ok rows
    /\ nth_error rows 2 = Some p
    /\ exists q,
        nth_error rows (2 - 2) = Some q
        /\ km_pace p
           = interval_pace 1000 (cumul_distance_2d p - cumul_distance_2d q)
                           (inject_Z (time (initial p) - time (initial q)))
        /\ mile_pace p
           = fmul (fdiv (Some MILE) (step_length_2d p))
                  (Some (inject_Z (time (initial p) - time (initial q)))).
Proof.
  eexists. eexists. split; [reflexivity|]. split; [reflexivity|].
  apply (@pace_cells (haversine_distance_spec flat_metric) 2 short_track
           _ 2 _ eq_refl eq_refl).
Defined.

(** ** Speed columns *)

Lemma Forall_of_map_eq {A B C : Type} (g : A -> C) (f : B -> C) (h : A -> B)
      (l : list A) :
  map g l = map f (map h l) -> Forall (fun p => g p = f (h p)) l.
Proof.
  induction l as [|p l IH]; simpl; intros H; constructor.
  - now injection H.
  - apply IH. now injection H.
Qed.

Lemma Qeq_bool_nonzero (x : Q) : ~ x == 0 -> Qeq_bool x 0 = false.
Proof.
  intros Hx. destruct (Qeq_bool x 0) eqn:E; [|reflexivity].
  apply Qeq_bool_eq in E. contradiction.
Qed.

(** In every row the two speeds follow from the km pace: without a pace
    there is no speed, and for a pace of [s] nanoseconds per kilometre, not
    zero, [kmph] times the pace in seconds is 3600 and [mph] times 1.609344
    is [kmph]. *)
Theorem speeds_follow_km_pace
        (haversine_distance : float -> float -> float -> float -> float)
        (N : Z) (df : list RawPoint) (rows : list Point) :
  infer_points_data haversine_distance N df = Ok rows ->
  Forall (fun p =>
            match km_pace p with
            | None => kmph p = None /\ mph p = None
            | Some s =>
                ~ s == 0 ->
                exists v w,
                  kmph p = Some v /\ mph p = Some w
                  /\ v * (s / 1000000000) == 3600
                  /\ w * (1609344 # 1000000) == v
            end) rows.
Proof.
  intros H. destruct df as [|first df]; [discriminate|].
  destruct (infer_columns _ _ _ H) as (_ & _ & _ & _ & _ & Hkp & _).
  destruct (infer_speed_columns H) as (_ & Hk & Hm).
  unfold mph_col in Hm. rewrite <- Hk in Hm.
  unfold kmph_col in Hk. rewrite <- Hkp in Hk.
  apply Forall_of_map_eq in Hk. apply Forall_of_map_eq in Hm.
  rewrite Forall_forall in *. intros p Hin.
  specialize (Hk p Hin). specialize (Hm p Hin). cbn beta in Hk, Hm.
  destruct (km_pace p) as [s|].
  - intros Hs. cbn [total_seconds option_map fdiv] in Hk.
    assert (Hs' : ~ s / 1000000000 == 0).
    { intros E. apply Hs.
      assert (Hq : s == s / 1000000000 * 1000000000) by field.
      rewrite Hq, E. lra. }
    rewrite (Qeq_bool_nonzero Hs') in Hk.
    rewrite Hk in Hm. cbn [fdiv] in Hm.
    change (Qeq_bool (MILE / 1000) 0) with false in Hm.
    eexists. eexists. split; [exact Hk|]. split; [exact Hm|]. split.
    + field. exact Hs.
    + unfold MILE. field. exact Hs.
  - cbn [total_seconds option_map fdiv] in Hk. rewrite Hk in Hm.
    split; [exact Hk | exact Hm].
Qed.

Lemma speeds_follow_km_pace_witness :
  exists rows p,
    infer_points_data (haversine_distance_spec flat_metric) 1 long_track = Ok rows
    /\ nth_error rows 1 = Some p
    /\ feq (km_pace p) (Some 500000000000)
    /\ feq (kmph p) (Some (72 # 10))
    /\ Forall (fun p =>
                 match km_pace p with
                 | None => kmph p = None /\ mph p = None
                 | Some s =>
                     ~ s == 0 ->
                     exists v w,
                       kmph p = Some v /\ mph p = Some w
                       /\ v * (s / 1000000000) == 3600
                       /\ w * (1609344 # 1000000) == v
                 end) rows.
Proof.
  eexists. eexists. split; [reflexivity|]. split; [reflexivity|].
  split; [reflexivity|]. split; [reflexivity|].
  apply (@speeds_follow_km_pace (haversine_distance_spec flat_metric) 1
           long_track _ eq_refl).
Defined.

(** ** What [FITParser] keeps of the stream *)

Lemma range_from_snoc (n : nat) :
  forall a, range_from a (n + 1) = range_from a n ++ [(a + Z.of_nat n)%Z].
Proof.
  induction n as [|n IH]; intros a.
  - simpl. now rewrite Z.add_0_r.
  - cbn [Nat.add range_from app]. rewrite IH. do 3 f_equal. lia.
Qed.

Section FitInvariant.
Import FIT.

Lemma recorded_make_data no (f : frame) :
  recorded f (make_data no (position_lat f) (position_long f) (altitude f)
                        (timestamp f) (heart_rate f) (frame_cadence f)).
Proof.
  unfold recorded, make_data. cbn.
  repeat split; auto; intros v ->; reflexivity.
Qed.

Lemma recorded_fill_from (f : frame) (new b : data) :
  accepted f = true -> recorded f b -> recorded f (fill_from new b).
Proof.
  unfold accepted. intros Hacc (Ht & Hs & He & Htime & Hhr & Hcad & Hlat & Hlon).
  apply andb_prop in Hacc. destruct Hacc as [Hts Halt].
  unfold recorded, fill_from. cbn.
  split; [exact Ht|]. split; [exact Hs|].
  split.
  { rewrite He in *. destruct (altitude f); [reflexivity | discriminate]. }
  split.
  { rewrite Htime in *. destruct (timestamp f); [reflexivity | discriminate]. }
  split; [intros v Hv; now rewrite (Hhr v Hv)|].
  split; [intros v Hv; now rewrite (Hcad v Hv)|].
  split; intros v Hv; [now rewrite (Hlat v Hv) | now rewrite (Hlon v Hv)].
Qed.

Lemma has_coordinates_fill_from (new b : data) :
  has_coordinates new -> has_coordinates (fill_from new b).
Proof.
  unfold has_coordinates, fill_from. cbn. intros [Hlat Hlon].
  destruct (latitude new), (longitude new), (latitude b), (longitude b);
    cbn; split; congruence.
Qed.

Lemma step_rejected (self : parser) (f : frame) :
  accepted f = false -> step self f = self.
Proof. unfold step, accepted. now intros ->. Qed.

Lemma step_invariant (seen : list frame) (self : parser) (f : frame) :
  accepted f = true ->
  parser_invariant seen self ->
  parser_invariant (seen ++ [f]) (step self f)
  /\ (has_position f = true -> _backfill (step self f) = []).
Proof.
  intros Hacc (Hpoint & Hseen & Hrec & Hno & Hco).
  assert (Hlen : length (_points_data self ++ _backfill self) = length seen)
    by (symmetry; eapply Forall2_length; exact Hrec).
  unfold step. pose proof Hacc as Hacc'. unfold accepted in Hacc'.
  rewrite Hacc'. unfold _add_point.
  set (new := make_data (_point self + 1) (position_lat f) (position_long f)
                        (altitude f) (timestamp f) (heart_rate f)
                        (frame_cadence f)).
  assert (Hnew : recorded f new) by apply recorded_make_data.
  assert (Hnum : point_no new = Z.of_nat (length seen)) by (cbn; lia).
  unfold parser_invariant.
  destruct (is_none (position_lat f) || is_none (position_long f)) eqn:Hn;
    cbn [_point _points_data _backfill].
  - split.
    + rewrite length_app, Nat.add_1_r.
      split; [cbn [length]; lia|].
      split; [apply Forall_app; split; [exact Hseen | constructor; [exact Hacc | constructor]]|].
      split.
      { rewrite app_assoc. apply Forall2_app; [exact Hrec | constructor; [exact Hnew | constructor]]. }
      split; [|exact Hco].
      rewrite app_assoc, map_app, Hno. cbn [map].
      rewrite <- Nat.add_1_r, range_from_snoc, Hnum. reflexivity.
    + unfold has_position. intros Hp.
      destruct (position_lat f), (position_long f); cbn in *; discriminate.
  - assert (Hcn : has_coordinates new).
    { unfold has_coordinates. subst new. cbn.
      destruct (position_lat f), (position_long f); cbn in *;
        try discriminate; split; discriminate. }
    assert (Hnums : map point_no (_points_data self
                                    ++ map (fill_from new) (_backfill self)
                                    ++ [new])
                    = range_from 0 (length seen + 1)).
    { rewrite !map_app, map_map. cbn [map].
      change (map (fun x => point_no (fill_from new x)) (_backfill self))
        with (map point_no (_backfill self)).
      rewrite app_assoc, <- map_app, Hno, range_from_snoc, Hnum. reflexivity. }
    split; [|reflexivity].
    rewrite app_nil_r, length_app. cbn [length].
    split; [lia|].
    split; [apply Forall_app; split; [exact Hseen | constructor; [exact Hacc | constructor]]|].
    apply Forall2_app_inv_r in Hrec.
    destruct Hrec as (s1 & s2 & Hr1 & Hr2 & ->).
    apply Forall_app in Hseen. destruct Hseen as [Hs1 Hs2].
    split.
    { rewrite app_assoc. apply Forall2_app; [|constructor; [exact Hnew | constructor]].
      apply Forall2_app; [exact Hr1|].
      clear - Hr2 Hs2. induction Hr2 as [|g b s2 bs Hgb _ IH]; cbn [map];
        constructor.
      - inversion Hs2; subst. now apply recorded_fill_from.
      - apply IH. now inversion Hs2. }
    split.
    { exact Hnums. }
    rewrite app_assoc. apply Forall_app. split; [|constructor; [exact Hcn | constructor]].
    apply Forall_app. split; [exact Hco|].
    rewrite Forall_map. apply Forall_forall. intros b _.
    now apply has_coordinates_fill_from.
Qed.

Lemma fold_invariant (frames : list frame) :
  forall seen self,
    parser_invariant seen self ->
    parser_invariant (seen ++ filter accepted frames) (fold_left step frames self).
Proof.
  induction frames as [|f frames IH]; intros seen self Hinv; cbn [fold_left filter].
  - now rewrite app_nil_r.
  - destruct (accepted f) eqn:Hacc.
    + replace (seen ++ f :: filter accepted frames)
        with ((seen ++ [f]) ++ filter accepted frames)
        by (now rewrite <- app_assoc).
      apply IH. now apply step_invariant.
    + rewrite step_rejected by exact Hacc. now apply IH.
Qed.

Lemma init_invariant : parser_invariant [] init.
Proof.
  unfold parser_invariant, init. cbn.
  repeat split; constructor.
Qed.

Lemma parse_invariant (frames : list frame) :
  parser_invariant (filter accepted frames) (fold_left step frames init).
Proof. exact (fold_invariant frames init_invariant). Qed.
End FitInvariant.

Lemma firstn_range_from (k n : nat) :
  (k <= n)%nat -> forall a, firstn k (range_from a n) = range_from a k.
Proof.
  revert n. induction k as [|k IH]; intros n Hk a; [reflexivity|].
  destruct n as [|n]; [lia|]. cbn [range_from firstn]. f_equal.
  apply IH. lia.
Qed.

(** Every point [FITParser] hands on has a latitude and a longitude. *)
Theorem fit_points_have_position (frames : list FIT.frame) :
  Forall has_coordinates (FIT.parse frames).
Proof.
  destruct (parse_invariant frames) as (_ & _ & _ & _ & H). exact H.
Qed.

(** The points [FITParser] hands on are numbered 0, 1, 2, ... in their
    order: the numbers given on arrival are those of the emission. *)
Theorem fit_point_numbers (frames : list FIT.frame) :
  map FIT.point_no (FIT.parse frames)
  = range_from 0 (length (FIT.parse frames)).
Proof.
  destruct (parse_invariant frames) as (_ & _ & Hrec & Hno & _).
  unfold FIT.parse, FIT.parse_from.
  set (st := fold_left FIT.step frames FIT.init) in *.
  apply Forall2_length in Hrec. rewrite length_app in Hrec.
  apply (f_equal (firstn (length (FIT._points_data st)))) in Hno.
  rewrite map_app, firstn_app, length_map, Nat.sub_diag in Hno.
  rewrite firstn_all2 in Hno by (rewrite length_map; lia).
  cbn [firstn] in Hno. rewrite app_nil_r in Hno. rewrite Hno.
  apply firstn_range_from. lia.
Qed.

(** The points handed on are the first accepted messages of the stream, one
    point per message and in the order of the stream, each with the
    altitude and the timestamp of its message and with every other value the
    message had. *)
Theorem fit_points_as_recorded (frames : list FIT.frame) :
  Forall2 recorded
          (firstn (length (FIT.parse frames)) (filter FIT.accepted frames))
          (FIT.parse frames).
Proof.
  destruct (parse_invariant frames) as (_ & _ & Hrec & _).
  unfold FIT.parse, FIT.parse_from.
  set (st := fold_left FIT.step frames FIT.init) in *.
  apply Forall2_app_inv_r in Hrec. destruct Hrec as (s1 & s2 & H1 & _ & ->).
  rewrite <- (Forall2_length H1), firstn_app, Nat.sub_diag, firstn_all.
  cbn [firstn]. now rewrite app_nil_r.
Qed.

(** Messages without a timestamp or without an altitude leave no trace, not
    even in the numbering. *)
Theorem fit_ignores_rejected (frames : list FIT.frame) :
  FIT.parse frames = FIT.parse (filter FIT.accepted frames).
Proof.
  unfold FIT.parse, FIT.parse_from. f_equal. generalize FIT.init.
  induction frames as [|f frames IH]; intros self; [reflexivity|].
  cbn [fold_left filter]. destruct (FIT.accepted f) eqn:Hacc.
  - cbn [fold_left]. apply IH.
  - rewrite step_rejected by exact Hacc. apply IH.
Qed.

(** When the last message of the stream is accepted and has both
    coordinates, no accepted message is lost: there are as many points as
    accepted messages. *)
Theorem fit_complete_stream (frames : list FIT.frame) (f : FIT.frame) :
  FIT.accepted f = true ->
  FIT.has_position f = true ->
  length (FIT.parse (frames ++ [f]))
  = length (filter FIT.accepted (frames ++ [f])).
Proof.
  intros Hacc Hpos. unfold FIT.parse, FIT.parse_from.
  rewrite fold_left_app. cbn [fold_left].
  pose proof (parse_invariant frames) as Hinv.
  destruct (step_invariant f Hacc Hinv) as [(_ & _ & Hrec & _) Hb].
  specialize (Hb Hpos). rewrite Hb, app_nil_r in Hrec.
  apply Forall2_length in Hrec. rewrite <- Hrec.
  rewrite filter_app. cbn [filter]. now rewrite Hacc.
Qed.

Lemma fit_complete_stream_witness :
  length (FIT.parse (fit_pending ++ [fit_trigger])) = 4%nat
  /\ length (FIT.parse (fit_pending ++ [fit_trigger]))
     = length (filter FIT.accepted (fit_pending ++ [fit_trigger])).
Proof.
  split; [reflexivity|].
  apply (@fit_complete_stream fit_pending fit_trigger eq_refl eq_refl).
Defined.

(** ** The metadata of a FIT stream *)

Section FitSession.
Import FITSession.
Local Open Scope string_scope.

Lemma run_points (messages : list message) :
  forall st,
    snd (fold_left session_step messages st)
    = fold_left FIT.step (map fields messages) (snd st).
Proof.
  induction messages as [|m messages IH]; intros st; [reflexivity|].
  cbn [fold_left map]. rewrite IH. reflexivity.
Qed.

Lemma dict_get_garmin (s t : string) :
  dict_get GPX.GARMIN_TYPES s = Some t -> In t ["hike"; "run"; "walk"].
Proof.
  unfold GPX.GARMIN_TYPES. cbn [dict_get].
  destruct (String.eqb "hiking" s); [intros [= <-]; cbn; auto|].
  destruct (String.eqb "running" s); [intros [= <-]; cbn; auto|].
  destruct (String.eqb "walking" s); [intros [= <-]; cbn; auto|].
  discriminate.
Qed.

Lemma fold_activity_type (messages : list message) :
  forall st t,
    activity_type (fst (fold_left session_step messages st)) = Some t ->
    activity_type (fst st) = Some t
    \/ exists m, In m messages
                 /\ exists s, sport m = Some s
                              /\ dict_get GPX.GARMIN_TYPES s = Some t.
Proof.
  induction messages as [|m messages IH]; intros st t H; [now left|].
  cbn [fold_left] in H. apply IH in H. destruct H as [H|(m' & Hin & H)].
  - unfold session_step in H. cbn [fst] in H.
    unfold note_activity_type in H.
    assert (Hd : activity_type (note_date_time (fst st) m)
                 = activity_type (fst st)).
    { unfold note_date_time.
      destruct (date_time (fst st)), (FIT.timestamp (fields m)); reflexivity. }
    rewrite Hd in H.
    destruct (activity_type (fst st)) as [t0|] eqn:E.
    + left. congruence.
    + destruct (sport m) as [s|] eqn:Hs.
      * cbn [activity_type] in H. right. exists m. split; [now left|].
        exists s. split; [exact Hs | exact H].
      * congruence.
  - right. exists m'. split; [now right | exact H].
Qed.

(** The activity type [FITParser] reports is that of a message whose sport
    is hiking, running or walking, hence hike, run or walk, or it is [None];
    it is never the string unknown. *)
Theorem fit_activity_type_known_or_none (messages : list message) (t : string) :
  activity_type (fst (run messages)) = Some t ->
  In t ["hike"; "run"; "walk"]
  /\ exists m s, In m messages /\ sport m = Some s
                 /\ dict_get GPX.GARMIN_TYPES s = Some t.
Proof.
  intros H. apply fold_activity_type in H.
  destruct H as [H|(m & Hin & s & Hs & Hg)]; [discriminate|].
  split; [exact (dict_get_garmin _ Hg)|].
  exists m, s. auto.
Qed.

Lemma fold_unmapped (messages : list message) :
  Forall (fun m => match sport m with
                   | Some s => dict_get GPX.GARMIN_TYPES s = None
                   | None => True
                   end) messages ->
  forall st,
    activity_type (fst st) = None ->
    activity_type (fst (fold_left session_step messages st)) = None.
Proof.
  induction 1 as [|m messages Hm _ IH]; intros st Hst; [exact Hst|].
  cbn [fold_left]. apply IH. unfold session_step. cbn [fst].
  unfold note_activity_type.
  assert (Hd : activity_type (note_date_time (fst st) m) = None).
  { unfold note_date_time.
    destruct (date_time (fst st)), (FIT.timestamp (fields m)); exact Hst. }
  rewrite Hd. destruct (sport m) as [s|]; [exact Hm | exact Hd].
Qed.

Lemma fold_first_mapped (messages : list message) :
  forall st t,
    activity_type (fst st) = Some t ->
    activity_type (fst (fold_left session_step messages st)) = Some t.
Proof.
  induction messages as [|m messages IH]; intros st t Hst; [exact Hst|].
  cbn [fold_left]. apply IH. unfold session_step. cbn [fst].
  unfold note_activity_type.
  assert (Hd : activity_type (note_date_time (fst st) m) = Some t).
  { unfold note_date_time.
    destruct (date_time (fst st)), (FIT.timestamp (fields m)); exact Hst. }
  rewrite Hd. exact Hd.
Qed.

(** The first message whose sport is in the table decides the activity
    type: a sport outside the table before it leaves the type open, and no
    later message changes it. *)
Theorem fit_activity_type_first_mapped
        (before : list message) (m : message) (after : list message)
        (s t : string) :
  Forall (fun m => match sport m with
                   | Some s => dict_get GPX.GARMIN_TYPES s = None
                   | None => True
                   end) before ->
  sport m = Some s ->
  dict_get GPX.GARMIN_TYPES s = Some t ->
  activity_type (fst (run (before ++ m :: after))) = Some t.
Proof.
  intros Hb Hs Ht. unfold run. rewrite fold_left_app. cbn [fold_left].
  apply fold_first_mapped.
  pose proof (fold_unmapped Hb (empty_metadata, FIT.init) eq_refl) as Hn.
  destruct (fold_left session_step before (empty_metadata, FIT.init))
    as [md p].
  cbn [fst] in Hn. unfold session_step. cbn [fst].
  assert (Hd : activity_type (note_date_time md m) = None).
  { unfold note_date_time.
    destruct (date_time md), (FIT.timestamp (fields m)); exact Hn. }
  unfold note_activity_type. rewrite Hd, Hs. exact Ht.
Qed.
End FitSession.

Lemma fit_activity_type_known_or_none_witness :
  FITSession.activity_type
    (fst (FITSession.run (session_messages ++ [session_run; session_walk])))
  = Some "run"%string
  /\ In "run"%string ["hike"; "run"; "walk"]%string.
Proof.
  split; [reflexivity|].
  apply (@fit_activity_type_known_or_none
           (session_messages ++ [session_run; session_walk]) "run" eq_refl).
Defined.

Lemma fit_activity_type_first_mapped_witness :
  FITSession.activity_type
    (fst (FITSession.run (session_messages ++ session_run :: [session_walk])))
  = Some "run"%string.
Proof.
  apply (@fit_activity_type_first_mapped session_messages session_run
           [session_walk] "running" "run").
  - repeat constructor.
  - reflexivity.
  - reflexivity.
Defined.

(** ** A FIT stream without a position *)

Section FitParse.
Import FIT.

Lemma step_keeps_points (self : parser) (f : frame) :
  exists more,
    _points_data (step self f) = _points_data self ++ more
    /\ (emits f = true -> more <> [])
    /\ (emits f = false -> more = []).
Proof.
  unfold step, emits, accepted, has_position.
  destruct (negb (is_none (timestamp f)) && negb (is_none (altitude f))).
  - unfold _add_point.
    destruct (position_lat f), (position_long f); cbn.
    + eexists. split; [reflexivity|]. split; [|discriminate].
      intros _ E. apply app_eq_nil in E. destruct E; discriminate.
    + exists []. rewrite app_nil_r. split; [reflexivity|].
      split; [discriminate | reflexivity].
    + exists []. rewrite app_nil_r. split; [reflexivity|].
      split; [discriminate | reflexivity].
    + exists []. rewrite app_nil_r. split; [reflexivity|].
      split; [discriminate | reflexivity].
  - exists []. rewrite app_nil_r. split; [reflexivity|].
    split; [discriminate | reflexivity].
Qed.

Lemma fold_emits (frames : list frame) :
  forall self,
    if existsb emits frames
    then _points_data (fold_left step frames self) <> []
    else _points_data (fold_left step frames self) = _points_data self.
Proof.
  induction frames as [|f frames IH]; intros self; [reflexivity|].
  cbn [existsb fold_left]. specialize (IH (step self f)).
  destruct (step_keeps_points self f) as (more & Hm & Hyes & Hno).
  destruct (emits f) eqn:Hf; cbn [orb].
  - destruct (existsb emits frames); [exact IH|].
    rewrite IH, Hm. intros E. apply app_eq_nil in E.
    destruct E as [_ E]. now apply Hyes.
  - destruct (existsb emits frames); [exact IH|].
    rewrite IH, Hm, (Hno eq_refl). apply app_nil_r.
Qed.
End FitParse.

Lemma existsb_of_map {A B : Type} (f : B -> bool) (g : A -> B) (l : list A) :
  existsb f (map g l) = existsb (fun x => f (g x)) l.
Proof. induction l as [|x l IH]; simpl; [reflexivity | now rewrite IH]. Qed.

(** [FITParser._parse] needs one message with a timestamp, an altitude and
    both coordinates: with one it returns at least one row, without any it
    fails with the [IndexError] of [infer_points_data] on a frame without
    rows. *)
Theorem fit_parse_needs_position
        (haversine_distance : float -> float -> float -> float -> float)
        (N : Z) (messages : list FITSession.message) :
  if existsb (fun m => emits (FITSession.fields m)) messages
  then exists md rows,
      FITSession._parse haversine_distance N messages = Ok (md, rows)
      /\ rows <> []
  else FITSession._parse haversine_distance N messages = Raise (IndexError 0).
Proof.
  unfold FITSession._parse, FITSession.run. rewrite run_points. cbn [snd].
  pose proof (fold_emits (map FITSession.fields messages) FIT.init) as H.
  rewrite existsb_of_map in H.
  destruct (existsb (fun m => emits (FITSession.fields m)) messages).
  - destruct (FIT._points_data
                (fold_left FIT.step (map FITSession.fields messages) FIT.init))
      as [|d ds]; [congruence|].
    cbn [map].
    destruct (infer_nonempty haversine_distance N (FITSession.to_row d)
                             (map FITSession.to_row ds)) as [rows Hr].
    rewrite Hr. cbn [bind]. eexists. exists rows. split; [reflexivity|].
    destruct (infer_columns _ _ _ Hr) as (Hinit & _).
    intros ->. discriminate.
  - rewrite H. reflexivity.
Qed.

(** ** The values and the failures of [GPXParser.activity_type] *)

Section ActivityTypeRange.
Import GPX.
Local Open Scope string_scope.

Lemma member_In (k : string) (s : list string) :
  member (Some k) s = true -> In k s.
Proof.
  cbn [member]. intros H. apply existsb_exists in H.
  destruct H as [x [Hin Hx]]. apply String.eqb_eq in Hx. now subst.
Qed.

Lemma get_strava (key : option string) :
  In (get STRAVA_TYPES key "unknown") ["run"; "walk"; "hike"; "unknown"].
Proof.
  destruct key as [k|]; [|cbn; auto].
  unfold STRAVA_TYPES. cbn [get].
  destruct (String.eqb "4" k); [cbn; auto|].
  destruct (String.eqb "9" k); [cbn; auto|].
  destruct (String.eqb "10" k); cbn; auto.
Qed.

Lemma get_garmin (key : option string) :
  In (get GARMIN_TYPES key "unknown") ["run"; "walk"; "hike"; "unknown"].
Proof.
  destruct key as [k|]; [|cbn; auto].
  unfold GARMIN_TYPES. cbn [get].
  destruct (String.eqb "hiking" k); [cbn; auto|].
  destruct (String.eqb "running" k); [cbn; auto|].
  destruct (String.eqb "walking" k); cbn; auto 6.
Qed.

(** Whatever the document, a value [activity_type] returns is one of run,
    walk, hike and unknown. *)
Theorem activity_type_closed (self : gpx) (t : string) :
  activity_type self = Ok t -> In t ["run"; "walk"; "hike"; "unknown"].
Proof.
  unfold activity_type. destruct (tracks self) as [|[tt] rest]; [discriminate|].
  cbn [type].
  assert (Hrest :
            (strava <- startswith (creator self) "StravaGPX" ;;
             if strava then Ok (get STRAVA_TYPES tt "unknown")
             else
               garmin <- startswith (creator self) "Garmin Connect" ;;
               if garmin then Ok (get GARMIN_TYPES tt "unknown")
               else Ok "unknown") = Ok t ->
            In t ["run"; "walk"; "hike"; "unknown"]).
  { destruct (creator self) as [c|]; cbn [startswith bind]; [|discriminate].
    destruct (String.prefix "StravaGPX" c); [intros [= <-]; apply get_strava|].
    destruct (String.prefix "Garmin Connect" c);
      intros [= <-]; [apply get_garmin | cbn; auto 6]. }
  destruct tt as [k|]; [|exact Hrest].
  destruct (member (Some k) ACTIVITY_TYPES) eqn:Hm; [|exact Hrest].
  intros [= <-]. apply member_In in Hm. cbn in Hm. cbn. intuition.
Qed.

(** [activity_type] fails in two cases only: with an [IndexError] on a
    document without a track, and with an [AttributeError] on a document
    without a creator whose first track is not typed run, walk or hike. *)
Theorem activity_type_failures (self : gpx) (e : pyerror) :
  activity_type self = Raise e <->
  (tracks self = [] /\ e = IndexError 0)
  \/ (exists t rest,
         tracks self = t :: rest
         /\ member (type t) ACTIVITY_TYPES = false
         /\ creator self = None
         /\ e = AttributeError).
Proof.
  unfold activity_type. destruct (tracks self) as [|[tt] rest].
  - split.
    + intros [= <-]. now left.
    + intros [[_ ->]|(t & r & E & _)]; [reflexivity | discriminate].
  - cbn [type]. split.
    + intros H. right. exists {| type := tt |}, rest. cbn [type].
      split; [reflexivity|].
      destruct tt as [k|].
      * destruct (member (Some k) ACTIVITY_TYPES); [discriminate|].
        split; [reflexivity|].
        destruct (creator self) as [c|]; cbn [startswith bind] in H.
        -- destruct (String.prefix "StravaGPX" c); [discriminate|].
           destruct (String.prefix "Garmin Connect" c); discriminate.
        -- injection H as <-. auto.
      * split; [reflexivity|].
        destruct (creator self) as [c|]; cbn [startswith bind] in H.
        -- destruct (String.prefix "StravaGPX" c); [discriminate|].
           destruct (String.prefix "Garmin Connect" c); discriminate.
        -- injection H as <-. auto.
    + intros [[E _]|(t & r & E & Hm & Hc & ->)]; [discriminate|].
      injection E as <- <-. cbn [type] in Hm. rewrite Hc.
      destruct tt as [k|]; [rewrite Hm|]; reflexivity.
Qed.
End ActivityTypeRange.

Lemma activity_type_failures_witness :
  GPX.activity_type (gpx_file None (Some "cycling"))%string
  = Raise AttributeError.
Proof.
  apply (proj2 (@activity_type_failures
                  (gpx_file None (Some "cycling"))%string AttributeError)).
  right. exists {| GPX.type := Some "cycling"%string |}, [].
  repeat split; reflexivity.
Defined.

Lemma activity_type_closed_witness :
  GPX.activity_type (gpx_file (Some "StravaGPX Android") (Some "9"))%string
  = Ok "run"%string
  /\ In "run"%string ["run"; "walk"; "hike"; "unknown"]%string.
Proof.
  split; [reflexivity|].
  apply (@activity_type_closed
           (gpx_file (Some "StravaGPX Android") (Some "9"))%string
           "run" eq_refl).
Defined.

(** ** The boundaries of the split markers *)

Lemma for_each_map {A B : Type} (body : A -> result B) (g : B -> A) :
  (forall x y, body x = Ok y -> g y = x) ->
  forall l ys, for_each body l = Ok ys -> map g ys = l.
Proof.
  intros Hg l. induction l as [|x l IH]; intros ys; cbn [for_each].
  - now intros [= <-].
  - destruct (body x) as [y|] eqn:Hx; cbn [bind]; [|discriminate].
    destruct (for_each body l) as [ys'|]; cbn [bind]; [|discriminate].
    intros [= <-]. cbn [map]. f_equal; [now apply Hg | now apply IH].
Qed.

Lemma split_marker_begins split_len col df i m :
  split_marker split_len col df i = Ok m -> begins m = i /\ ends m = (i - 1)%Z.
Proof.
  unfold split_marker.
  destruct (iloc_last (bucket_rows col df (i - 1))); cbn [bind]; [|discriminate].
  destruct (iloc_first (bucket_rows col df i)); cbn [bind]; [|discriminate].
  intros [= <-]. split; reflexivity.
Qed.

(** The markers [get_split_markers] returns are those of the boundaries
    [lo + 1], ..., [hi] between the least bucket [lo] and the greatest bucket
    [hi] of the series, one each and in this order, and each ends the bucket
    before the one it begins. *)
Theorem split_markers_boundaries
        (points : list Point) (split_col : string) (markers : list Marker) :
  get_split_markers points split_col = Ok markers ->
  exists split_len col lo hi,
    split_column split_col = Ok (split_len, col)
    /\ column_min (map col points) = Ok lo
    /\ column_max (map col points) = Ok hi
    /\ map begins markers = range_from (lo + 1) (Z.to_nat (hi - lo))
    /\ Forall (fun m => ends m = (begins m - 1)%Z) markers.
Proof.
  unfold get_split_markers.
  destruct (split_column split_col) as [[split_len col]|]; cbn [bind fst snd];
    [|discriminate].
  destruct (column_min (map col points)) as [lo|] eqn:Hlo; cbn [bind];
    [|discriminate].
  destruct (column_max (map col points)) as [hi|] eqn:Hhi; cbn [bind];
    [|discriminate].
  intros H. exists split_len, col, lo, hi.
  split; [reflexivity|]. split; [exact Hlo|]. split; [exact Hhi|]. split.
  - eapply for_each_map; [|exact H].
    intros x y Hxy. now apply split_marker_begins in Hxy.
  - apply for_each_Ok in H. eapply Forall_impl; [|exact H]. cbn beta.
    intros m [i [_ Hm]]. apply split_marker_begins in Hm.
    destruct Hm as [-> ->]. reflexivity.
Qed.

Lemma split_markers_boundaries_witness :
  exists markers,
    get_split_markers long_series "km" = Ok markers
    /\ exists split_len col lo hi,
        split_column "km" = Ok (split_len, col)
        /\ column_min (map col long_series) = Ok lo
        /\ column_max (map col long_series) = Ok hi
        /\ map begins markers = range_from (lo + 1) (Z.to_nat (hi - lo))
        /\ Forall (fun m => ends m = (begins m - 1)%Z) markers.
Proof.
  eexists. split; [reflexivity|].
  apply (@split_markers_boundaries long_series "km" _ eq_refl).
Defined.

Lemma fold_min_const (b : Z) (r : list Z) :
  Forall (fun y => y = b) r -> fold_left Z.min r b = b.
Proof.
  intros H. destruct (fold_min_spec r b) as [Hin _].
  destruct Hin as [Hin|Hin]; [now symmetry|].
  rewrite Forall_forall in H. now apply H.
Qed.

Lemma fold_max_const (b : Z) (r : list Z) :
  Forall (fun y => y = b) r -> fold_left Z.max r b = b.
Proof.
  intros H. destruct (fold_max_spec r b) as [Hin _].
  destruct Hin as [Hin|Hin]; [now symmetry|].
  rewrite Forall_forall in H. now apply H.
Qed.

Lemma get_split_markers_single_bucket split_col split_len col p points :
  split_column split_col = Ok (split_len, col) ->
  Forall (fun q => col q = col p) points ->
  get_split_markers (p :: points) split_col = Ok [].
Proof.
  intros Hsc Hall.
  unfold get_split_markers. rewrite Hsc. cbn [bind fst snd map].
  unfold column_min, column_max. cbn [bind].
  assert (Hc : Forall (fun y => y = col p) (map col points))
    by (rewrite Forall_map; exact Hall).
  rewrite (fold_min_const Hc), (fold_max_const Hc), Z.sub_diag.
  reflexivity.
Qed.

Lemma get_split_markers_bad_column split_col points :
  split_col <> "km"%string -> split_col <> "mile"%string ->
  get_split_markers points split_col = Raise ValueError
  /\ split_column split_col = Raise ValueError.
Proof.
  intros Hkm Hmile. unfold get_split_markers, split_column.
  apply String.eqb_neq in Hkm, Hmile. now rewrite Hkm, Hmile.
Qed.

(** [get_split_markers] refuses with a [ValueError] every column name but km
    and mile, and every series without a point; for a series that stays
    within one bucket it returns no marker. *)
Theorem split_markers_edge_cases (split_col : string) :
  (split_col <> "km"%string -> split_col <> "mile"%string ->
   forall points, get_split_markers points split_col = Raise ValueError)
  /\ get_split_markers [] split_col = Raise ValueError
  /\ (forall split_len col p points,
         split_column split_col = Ok (split_len, col) ->
         Forall (fun q => col q = col p) points ->
         get_split_markers (p :: points) split_col = Ok []).
Proof.
  split; [|split].
  - intros Hkm Hmile points.
    apply (get_split_markers_bad_column points Hkm Hmile).
  - unfold get_split_markers, split_column.
    destruct (String.eqb split_col "km"); [reflexivity|].
    destruct (String.eqb split_col "mile"); reflexivity.
  - intros split_len col p points.
    apply get_split_markers_single_bucket.
Qed.

Lemma split_markers_edge_cases_witness :
  get_split_markers long_series "lap" = Raise ValueError
  /\ get_split_markers [series_point 0 0; series_point 60 200; series_point 120 400]
                       "km" = Ok [].
Proof.
  split.
  - apply (proj1 (split_markers_edge_cases "lap")); discriminate.
  - apply (proj2 (proj2 (split_markers_edge_cases "km")) 1000 km).
    + reflexivity.
    + repeat constructor.
Defined.

(** ** Sums of lap statistics *)

Lemma get_lap_durations_cell_witness :
  exists durations,
    get_lap_durations ordered_laps long_series = Ok durations
    /\ nth_error durations 1 = Some (-900000000000)%Z.
Proof.
  eexists. split; [reflexivity|].
  apply (@get_lap_durations_cell ordered_laps long_series
           (series_point 2000 1800) _ 1 {| start_time := 600000000000 |}
           eq_refl eq_refl eq_refl).
Defined.

Lemma shift_m1_cons {A : Type} (fill x : A) (c : list A) :
  shift (-1) fill (x :: c) = c ++ [fill].
Proof. reflexivity. Qed.

Lemma sum_sub_next (c : list Z) :
  forall x fill,
    fold_right Z.add 0%Z (map2 Z.sub (x :: c) (c ++ [fill])) = (x - fill)%Z.
Proof.
  induction c as [|y c IH]; intros x fill.
  - simpl. lia.
  - change (map2 Z.sub (x :: y :: c) ((y :: c) ++ [fill]))
      with ((x - y)%Z :: map2 Z.sub (y :: c) (c ++ [fill])).
    cbn [fold_right]. rewrite IH. lia.
Qed.

Lemma Qsum_sub_next (c : list Q) :
  forall x fill,
    Qsum (map2 Qminus (x :: c) (c ++ [fill])) == x - fill.
Proof.
  induction c as [|y c IH]; intros x fill.
  - simpl. lra.
  - change (map2 Qminus (x :: y :: c) ((y :: c) ++ [fill]))
      with ((x - y) :: map2 Qminus (y :: c) (c ++ [fill])).
    change (Qsum ((x - y) :: map2 Qminus (y :: c) (c ++ [fill])))
      with ((x - y) + Qsum (map2 Qminus (y :: c) (c ++ [fill]))).
    rewrite IH. lra.
Qed.

(** The values [get_lap_durations] returns add up to the start of the first
    lap minus the time of the last point, whatever the laps in between. *)
Theorem get_lap_durations_sum
        (l : Lap) (laps : list Lap) (points : list Point) (durations : list Z) :
  get_lap_durations (l :: laps) points = Ok durations ->
  exists last,
    iloc_last points = Ok last
    /\ fold_right Z.add 0%Z durations
       = (start_time l - time (initial last))%Z.
Proof.
  unfold get_lap_durations.
  destruct (iloc_last points) as [last|]; cbn [bind]; [|discriminate].
  intros [= <-]. exists last. split; [reflexivity|].
  cbn [map]. rewrite shift_m1_cons. apply sum_sub_next.
Qed.

Lemma get_lap_durations_sum_witness :
  exists durations last,
    get_lap_durations ordered_laps long_series = Ok durations
    /\ iloc_last long_series = Ok last
    /\ fold_right Z.add 0%Z durations = (0 - time (initial last))%Z.
Proof.
  destruct (@get_lap_durations_sum {| start_time := 0 |}
              [ {| start_time := 600000000000 |};
                {| start_time := 1500000000000 |} ]
              long_series _ eq_refl) as (last & Hl & Hs).
  eexists. exists last. split; [reflexivity|]. split; [exact Hl | exact Hs].
Defined.

Lemma In_insert_key (k a : Z) (keys : list Z) :
  In k (insert_key a keys) <-> k = a \/ In k keys.
Proof.
  induction keys as [|x keys IH]; cbn [insert_key].
  - cbn. intuition.
  - destruct (Z.ltb_spec a x); [cbn; intuition|].
    destruct (Z.eqb_spec a x) as [->|Hne]; [cbn; intuition|].
    cbn [In]. rewrite IH. intuition.
Qed.

Lemma In_group_keys (points : list LapPoint) (k : Z) :
  In k (group_keys points) <-> In k (map lap points).
Proof.
  unfold group_keys. induction (map lap points) as [|a l IH]; cbn [fold_right].
  - reflexivity.
  - rewrite In_insert_key, IH. cbn. intuition.
Qed.

Lemma group_nonempty (points : list LapPoint) (k : Z) :
  In k (group_keys points) -> group points k <> [].
Proof.
  intros Hin. apply In_group_keys, in_map_iff in Hin.
  destruct Hin as [p [Hp Hin]]. intros E.
  assert (Hf : In p (group points k)).
  { apply filter_In. split; [exact Hin|]. apply Z.eqb_eq. exact Hp. }
  rewrite E in Hf. destruct Hf.
Qed.

Lemma groupby_first_length (points : list LapPoint) :
  length (groupby_first points) = length (group_keys points).
Proof.
  unfold groupby_first.
  assert (H : forall k, In k (group_keys points) -> group points k <> [])
    by apply group_nonempty.
  induction (group_keys points) as [|k keys IH]; [reflexivity|].
  cbn [flat_map]. rewrite length_app, IH by (intros; apply H; now right).
  destruct (group points k) eqn:E; [|reflexivity].
  exfalso. apply (H k); [now left | exact E].
Qed.

(** [get_lap_distances] returns one value per lap number present in the
    series, and the values add up to the cumulative distance at the first
    point of the lap with the least number minus the cumulative distance of
    the last point. *)
Theorem get_lap_distances_sum
        (p : LapPoint) (points : list LapPoint) :
  exists distances first last,
    get_lap_distances (p :: points) = Ok distances
    /\ length distances = length (group_keys (p :: points))
    /\ hd_error (groupby_first (p :: points)) = Some first
    /\ iloc_last (p :: points) = Ok last
    /\ Qsum distances == first - cumul_distance_2d (lap_point last).
Proof.
  unfold get_lap_distances.
  destruct (iloc_last_cons p points) as [last Hl]. rewrite Hl. cbn [bind].
  pose proof (groupby_first_length (p :: points)) as Hlen.
  assert (Hk : group_keys (p :: points) <> []).
  { intros E. assert (Hin : In (lap p) (group_keys (p :: points)))
      by (apply In_group_keys; now left).
    rewrite E in Hin. destruct Hin. }
  destruct (groupby_first (p :: points)) as [|first firsts] eqn:Ef.
  { destruct (group_keys (p :: points)); [congruence | discriminate]. }
  eexists. exists first, last. split; [reflexivity|].
  split.
  { rewrite length_map2, length_shift, Nat.min_id. exact Hlen. }
  split; [reflexivity|]. split; [reflexivity|].
  rewrite shift_m1_cons. apply Qsum_sub_next.
Qed.

(** ** The days of the week of the configuration *)

Section WeekDays.
Import Config.
Variable capitalize : string -> string.

Lemma index_Ok (x : string) (l : list string) (i : nat) :
  index x l = Ok i -> nth_error l i = Some x.
Proof.
  revert i. induction l as [|y l IH]; intros i; cbn [index]; [discriminate|].
  destruct (String.eqb_spec y x) as [->|Hne].
  - intros [= <-]. reflexivity.
  - destruct (index x l) as [j|]; cbn [bind]; [|discriminate].
    intros [= <-]. cbn [nth_error]. now apply IH.
Qed.

Lemma index_In (x : string) (l : list string) :
  In x l -> exists i, index x l = Ok i.
Proof.
  induction l as [|y l IH]; [intros []|]. intros Hin. cbn [index].
  destruct (String.eqb_spec y x) as [->|Hne]; [now exists 0%nat|].
  destruct Hin as [Hin|Hin]; [congruence|].
  destruct (IH Hin) as [i ->]. cbn [bind]. now exists (S i).
Qed.

Lemma index_Raise (x : string) (l : list string) (e : pyerror) :
  index x l = Raise e -> e = ValueError /\ ~ In x l.
Proof.
  induction l as [|y l IH]; cbn [index].
  - intros [= <-]. split; [reflexivity | intros []].
  - destruct (String.eqb_spec y x) as [->|Hne]; [discriminate|].
    destruct (index x l) as [j|e']; cbn [bind]; [discriminate|].
    intros [= <-]. destruct (IH eq_refl) as [-> Hn].
    split; [reflexivity|]. intros [H|H]; [congruence | contradiction].
Qed.

Lemma hd_error_rotate {A : Type} (l : list A) (i : nat) (x : A) :
  nth_error l i = Some x -> hd_error (skipn i l ++ firstn i l) = Some x.
Proof.
  intros H. assert (Hs : hd_error (skipn i l) = Some x)
    by (rewrite hd_error_skipn; exact H).
  destruct (skipn i l); [discriminate | exact Hs].
Qed.

(** When the configured start of the week, capitalised, is the name of a
    day, the days of the week are the seven days in their cycle from that
    day on: a rearrangement of the week that starts with it. *)
Theorem days_of_week_rotation (week_start w : string) (days : list string) :
  days_of_week capitalize week_start = Ok (w, days) ->
  w = capitalize week_start
  /\ hd_error days = Some w
  /\ Permutation days DAYS_OF_WEEK
  /\ length days = 7%nat
  /\ exists i, nth_error DAYS_OF_WEEK i = Some w
               /\ days = skipn i DAYS_OF_WEEK ++ firstn i DAYS_OF_WEEK.
Proof.
  unfold days_of_week.
  destruct (index (capitalize week_start) DAYS_OF_WEEK) as [i|] eqn:Hi;
    cbn [bind]; [|discriminate].
  intros [= <- <-]. apply index_Ok in Hi.
  split; [reflexivity|]. split; [now apply hd_error_rotate|].
  split.
  { etransitivity; [apply Permutation_app_comm|].
    now rewrite firstn_skipn. }
  split.
  { rewrite length_app, Nat.add_comm, <- length_app, firstn_skipn.
    reflexivity. }
  exists i. split; [exact Hi | reflexivity].
Qed.

(** The configuration is refused, with the [ValueError] of [list.index],
    exactly when the capitalised start of the week is not the name of a
    day. *)
Theorem days_of_week_unknown_day (week_start : string) :
  (In (capitalize week_start) DAYS_OF_WEEK ->
   exists days,
     days_of_week capitalize week_start = Ok (capitalize week_start, days))
  /\ (~ In (capitalize week_start) DAYS_OF_WEEK ->
      days_of_week capitalize week_start = Raise ValueError).
Proof.
  unfold days_of_week. split.
  - intros Hin. destruct (index_In _ _ Hin) as [i ->]. cbn [bind]. eauto.
  - intros Hn.
    destruct (index (capitalize week_start) DAYS_OF_WEEK) as [i|e] eqn:Hi.
    + apply index_Ok, nth_error_In in Hi. contradiction.
    + apply index_Raise in Hi. destruct Hi as [-> _]. reflexivity.
Qed.
End WeekDays.

Lemma days_of_week_rotation_witness :
  Config.days_of_week (fun s => s) "Wednesday"
  = Ok ("Wednesday"%string,
        ["Wednesday"; "Thursday"; "Friday"; "Saturday"; "Sunday"; "Monday";
         "Tuesday"]%string)
  /\ Permutation ["Wednesday"; "Thursday"; "Friday"; "Saturday"; "Sunday";
                  "Monday"; "Tuesday"]%string Config.DAYS_OF_WEEK.
Proof.
  split; [reflexivity|].
  apply (@days_of_week_rotation (fun s => s) "Wednesday" _ _ eq_refl).
Defined.

Lemma days_of_week_unknown_day_witness :
  (exists days,
      Config.days_of_week (fun s => s) "Monday" = Ok ("Monday"%string, days))
  /\ Config.days_of_week (fun s => s) "Lundi" = Raise ValueError.
Proof.
  split.
  - apply (proj1 (days_of_week_unknown_day (fun s => s) "Monday")).
    cbn. auto.
  - apply (proj2 (days_of_week_unknown_day (fun s => s) "Lundi")).
    cbn. intros H. repeat (destruct H as [H|H]; [discriminate|]). exact H.
Defined.

(** ** The speeds of the metadata *)

Section PostInit.
Import MetaData.

(** For an activity built from its points, with a mean pace whose seconds
    within the day [s] are not zero, [__post_init__] sets [kmph_mean] to
    [3600 / s], [mph_mean] to [kmph_mean / 1609.344] and [mile_pace_mean] to
    [60 / mph_mean] seconds, that is [s * 1609.344 / 60]; the distance in
    miles is the distance in metres over 1609.344. *)
Theorem post_init_defaults (distance_km : Q) (ns : Z) :
  ((ns / 1000000000) mod 86400 <> 0)%Z ->
  let s := inject_Z ((ns / 1000000000) mod 86400) in
  exists r miles mph pace,
    post_init_speeds (from_points distance_km (Some ns)) = Return r
    /\ distance_2d_mile r = Some miles
    /\ miles * MILE == distance_km * 1000
    /\ kmph_mean r = Some (Some (3600 / s))
    /\ mph_mean r = Some (Some mph)
    /\ mph * MILE == 3600 / s
    /\ mile_pace_mean r = Some (Some pace)
    /\ pace * 60 == s * MILE.
Proof.
  intros Hs s.
  assert (Hpos : 0 < s).
  { subst s. pose proof (Z.mod_pos_bound (ns / 1000000000) 86400 eq_refl) as Hb.
    change 0 with (inject_Z 0). rewrite <- Zlt_Qlt. lia. }
  assert (Hs0 : Qeq_bool s 0 = false) by (apply Qeq_bool_pos; exact Hpos).
  assert (Hm : Qeq_bool (3600 / s / MILE) 0 = false).
  { apply Qeq_bool_pos. unfold MILE.
    apply Qlt_shift_div_l; [reflexivity|]. apply Qlt_shift_div_l; lra. }
  unfold post_init_speeds, from_points.
  cbn [distance_2d_mile kmph_mean mph_mean mile_pace_mean km_pace_mean
       distance_2d_km default_to and_then seconds option_map py_div].
  fold s. rewrite Hs0.
  cbn [and_then default_to option_map py_div]. rewrite Hm.
  cbn [and_then].
  eexists. eexists. eexists. eexists.
  split; [reflexivity|].
  cbn [distance_2d_mile kmph_mean mph_mean mile_pace_mean].
  split; [reflexivity|]. split; [unfold MILE; field|].
  split; [reflexivity|]. split; [reflexivity|].
  split; [unfold MILE; field; lra|].
  split; [reflexivity|]. unfold MILE. field. lra.
Qed.

Lemma post_init_defaults_witness :
  exists r,
    post_init_speeds (from_points 10 (Some 300000000000%Z)) = Return r
    /\ kmph_mean r = Some (Some (3600 / inject_Z 300))
    /\ exists mph pace,
        mph_mean r = Some (Some mph) /\ mph * MILE == 3600 / inject_Z 300
        /\ mile_pace_mean r = Some (Some pace)
        /\ pace * 60 == inject_Z 300 * MILE.
Proof.
  destruct (@post_init_defaults 10 300000000000)
    as (r & miles & mph & pace & Hr & _ & _ & Hk & Hm & Hm' & Hp & Hp').
  - discriminate.
  - exists r. split; [exact Hr|]. split; [exact Hk|].
    exists mph, pace. auto.
Defined.

(** A mean pace whose seconds within the day are zero, as one shorter than
    a second or one of exactly a day, makes [__post_init__] fail with a
    [ZeroDivisionError] when [kmph_mean] is not given. *)
Theorem post_init_zero_seconds (distance_km : Q) (ns : Z) :
  ((ns / 1000000000) mod 86400 = 0)%Z ->
  post_init_speeds (from_points distance_km (Some ns)) = Throw ZeroDivisionError.
Proof.
  intros Hs. unfold post_init_speeds, from_points.
  cbn [distance_2d_mile kmph_mean mph_mean mile_pace_mean km_pace_mean
       distance_2d_km default_to and_then seconds option_map py_div].
  rewrite Hs. reflexivity.
Qed.

Lemma post_init_zero_seconds_witness :
  post_init_speeds (from_points 10 (Some 999999999%Z)) = Throw ZeroDivisionError
  /\ post_init_speeds (from_points 10 (Some 86400000000000%Z))
     = Throw ZeroDivisionError.
Proof.
  split.
  - apply (@post_init_zero_seconds 10 999999999 eq_refl).
  - apply (@post_init_zero_seconds 10 86400000000000 eq_refl).
Defined.

(** Whole days of the mean pace do not count: a pace and the same pace a
    number of days longer give the same metadata. *)
Theorem post_init_forgets_days (distance_km : Q) (ns days : Z) :
  post_init_speeds
    (from_points distance_km (Some (ns + days * 86400000000000)%Z))
  = match post_init_speeds (from_points distance_km (Some ns)) with
    | Return r =>
        Return {| distance_2d_km := distance_2d_km r;
                  km_pace_mean := Some (ns + days * 86400000000000)%Z;
                  distance_2d_mile := distance_2d_mile r;
                  kmph_mean := kmph_mean r;
                  mph_mean := mph_mean r;
                  mile_pace_mean := mile_pace_mean r |}
    | Throw e => Throw e
    end.
Proof.
  unfold post_init_speeds, from_points.
  cbn [distance_2d_mile kmph_mean mph_mean mile_pace_mean km_pace_mean
       distance_2d_km default_to and_then seconds option_map].
  replace ((ns + days * 86400000000000) / 1000000000 mod 86400)%Z
    with ((ns / 1000000000) mod 86400)%Z.
  2:{ replace (ns + days * 86400000000000)%Z
        with (ns + (days * 86400) * 1000000000)%Z by lia.
      rewrite Z.div_add by lia. now rewrite Z.mod_add by lia. }
  destruct (py_div 3600 (Some (inject_Z ((ns / 1000000000) mod 86400))))
    as [k|e]; cbn [and_then default_to]; [|reflexivity].
  destruct (py_div 60 (option_map (fun v => v / MILE) k)) as [p|e];
    cbn [and_then]; reflexivity.
Qed.
End PostInit.

(** ** The rows the earlier [infer_points_data] keeps *)

Section LegacyRows.
Variable haversine_distance : float -> float -> float -> float -> float.
Variable std : list float -> float.

Local Abbreviation row := (legacy_row haversine_distance std).
Local Abbreviation kept := (legacy_kept haversine_distance std).

Lemma nth_shift_1_0 {A : Type} (c : list (option A)) :
  nth 0 (shift 1 None c) None = None.
Proof. destruct c; reflexivity. Qed.

Lemma legacy_row_first (df : list RawPoint) (r : RawPoint) :
  row df 0%nat r = None.
Proof.
  unfold legacy_row. cbv zeta. rewrite !nth_shift_1_0.
  destruct (elevation r), (hr r), (cadence r); reflexivity.
Qed.

Lemma legacy_row_Some (df : list RawPoint) i r p :
  row df i r = Some p ->
  legacy_initial p = r
  /\ elevation r <> None /\ hr r <> None /\ cadence r <> None.
Proof.
  unfold legacy_row. cbv zeta.
  destruct (elevation r), (hr r), (cadence r); try discriminate.
  repeat match goal with
         | |- context [match ?x with Some _ => _ | None => _ end] =>
             destruct x; try discriminate
         end.
  intros [= <-]. cbn [legacy_initial]. repeat split; discriminate.
Qed.


Lemma In_mapi_from {A B : Type} (f : nat -> A -> B) (l : list A) :
  forall k y,
    In y (mapi_from f k l) ->
    exists i x, nth_error l i = Some x /\ y = f (k + i)%nat x.
Proof.
  induction l as [|x l IH]; intros k y; cbn [mapi_from]; [intros []|].
  intros [<-|Hin].
  - exists 0%nat, x. split; [reflexivity|]. now rewrite Nat.add_0_r.
  - apply IH in Hin. destruct Hin as (i & x' & Hx & ->).
    exists (S i), x'. split; [exact Hx|]. f_equal. lia.
Qed.

Lemma In_kept (df : list RawPoint) (p : LegacyPoint) :
  In p (kept df) ->
  exists i r, (0 < i)%nat /\ nth_error df i = Some r /\ row df i r = Some p.
Proof.
  unfold legacy_kept. intros Hin. apply in_flat_map in Hin.
  destruct Hin as (o & Ho & Hp). destruct o as [p'|]; [|destruct Hp].
  destruct Hp as [<-|[]]. apply In_mapi_from in Ho.
  destruct Ho as (i & r & Hr & Hrow). cbn [Nat.add] in Hrow.
  exists i, r. split; [|split; [exact Hr | now symmetry]].
  destruct i; [|lia]. rewrite legacy_row_first in Hrow. discriminate.
Qed.

Lemma length_options {A : Type} (l : list (option A)) :
  (length (flat_map (fun o => match o with Some p => [p] | None => [] end) l)
   <= length l)%nat.
Proof.
  induction l as [|[a|] l IH]; cbn [flat_map app length]; lia.
Qed.

Lemma length_kept (df : list RawPoint) :
  (length (kept df) <= length df - 1)%nat.
Proof.
  unfold legacy_kept. destruct df as [|r df]; [reflexivity|].
  cbn [mapi_from flat_map]. rewrite legacy_row_first. cbn [app length].
  etransitivity; [apply length_options|]. rewrite length_mapi_from. lia.
Qed.

(** The earlier [infer_points_data] never returns the first point of the
    track, and returns of the others only those with an elevation, a heart
    rate and a cadence, in the order of the track. *)
Theorem legacy_rows_have_sensors (df : list RawPoint) (out : list LegacyPoint) :
  legacy_infer_points_data haversine_distance std df = Ok out ->
  (length out < length df)%nat
  /\ Forall (fun p =>
               exists i,
                 (0 < i)%nat
                 /\ nth_error df i = Some (legacy_initial p)
                 /\ elevation (legacy_initial p) <> None
                 /\ hr (legacy_initial p) <> None
                 /\ cadence (legacy_initial p) <> None) out.
Proof.
  unfold legacy_infer_points_data.
  destruct (kept df) as [|first rest] eqn:Hk; cbn [iloc_first bind];
    [discriminate|].
  intros H.
  assert (E : out = map (set_run_time first) (first :: rest)) by congruence.
  subst out. clear H. split.
  - rewrite length_map. pose proof (length_kept df) as Hl. rewrite Hk in Hl.
    cbn [length] in *. lia.
  - rewrite Forall_map. apply Forall_forall. intros p Hin.
    rewrite <- Hk in Hin. apply In_kept in Hin.
    destruct Hin as (i & r & Hi & Hr & Hrow).
    apply legacy_row_Some in Hrow. destruct Hrow as (<- & He & Hh & Hc).
    cbn [set_run_time legacy_initial]. exists i. auto.
Qed.


End LegacyRows.


Lemma legacy_rows_have_sensors_witness :
  exists out,
    legacy_infer_points_data (haversine_distance_spec flat_metric) spike_std
                             sensor_track = Ok out
    /\ out <> []
    /\ (length out < length sensor_track)%nat.
Proof.
  eexists. split; [reflexivity|]. split; [discriminate|].
  apply (@legacy_rows_have_sensors (haversine_distance_spec flat_metric)
           spike_std sensor_track _ eq_refl).
Defined.

(** ** The failures of [get_split_summary] *)

(** [get_split_summary] fails on every series too short to cross a
    boundary: when all points lie in one bucket there is no marker, the
    frame of the markers has no time column and reading it is a
    [KeyError].  A column name other than km and mile and a series without
    a point are a [ValueError], and the [IndexError] of [get_split_markers]
    on a series with an empty bucket comes through. *)
Theorem split_summary_failures (split_col : string) :
  (split_col <> "km"%string -> split_col <> "mile"%string ->
   forall points,
     get_split_summary points split_col = Throw (Builtin ValueError))
  /\ get_split_summary [] split_col = Throw (Builtin ValueError)
  /\ (forall split_len col p points,
         split_column split_col = Ok (split_len, col) ->
         Forall (fun q => col q = col p) points ->
         get_split_summary (p :: points) split_col = Throw (KeyError "time"))
  /\ (forall points e,
         get_split_markers points split_col = Raise e ->
         get_split_summary points split_col = Throw (Builtin e)).
Proof.
  split; [|split; [|split]].
  - intros Hkm Hmile points. unfold get_split_summary.
    destruct (get_split_markers_bad_column points Hkm Hmile) as [_ ->].
    reflexivity.
  - unfold get_split_summary, get_split_markers, split_column.
    destruct (String.eqb split_col "km"); [reflexivity|].
    destruct (String.eqb split_col "mile"); reflexivity.
  - intros split_len col p points Hsc Hall. unfold get_split_summary.
    rewrite Hsc, (@get_split_markers_single_bucket _ _ _ _ _ Hsc Hall). reflexivity.
  - intros points e H. unfold get_split_summary.
    destruct (split_column split_col) as [sc|e0] eqn:Hsc.
    + rewrite H. reflexivity.
    + unfold get_split_markers in H. rewrite Hsc in H. cbn [bind] in H.
      injection H as <-. reflexivity.
Qed.

Lemma split_summary_failures_witness :
  get_split_summary long_series "lap" = Throw (Builtin ValueError)
  /\ get_split_summary
       [series_point 0 0; series_point 60 200; series_point 120 400] "km"
     = Throw (KeyError "time").
Proof.
  split.
  - apply (proj1 (split_summary_failures "lap")); discriminate.
  - apply (proj1 (proj2 (proj2 (split_summary_failures "km"))) 1000 km).
    + reflexivity.
    + repeat constructor.
Defined.

(** ** The durations of [get_split_summary] *)

Lemma insert_key_sorted (k : Z) (keys : list Z) :
  StronglySorted Z.lt keys -> StronglySorted Z.lt (insert_key k keys).
Proof.
  induction 1 as [|x keys Hs IH Hx]; cbn [insert_key].
  - repeat constructor.
  - destruct (Z.ltb_spec k x) as [Hlt|Hge].
    + constructor; [constructor; assumption|].
      constructor; [exact Hlt|].
      eapply Forall_impl; [|exact Hx]. cbn beta. intros y Hy. lia.
    + destruct (Z.eqb_spec k x) as [->|Hne]; [constructor; assumption|].
      constructor; [exact IH|].
      apply Forall_forall. intros y Hy. apply In_insert_key in Hy.
      destruct Hy as [->|Hy]; [lia|].
      rewrite Forall_forall in Hx. now apply Hx.
Qed.

Lemma keys_sorted (l : list Z) :
  StronglySorted Z.lt (fold_right insert_key [] l).
Proof.
  induction l as [|a l IH]; cbn [fold_right]; [constructor|].
  now apply insert_key_sorted.
Qed.

Lemma In_keys (l : list Z) (k : Z) :
  In k (fold_right insert_key [] l) <-> In k l.
Proof.
  induction l as [|a l IH]; cbn [fold_right]; [reflexivity|].
  rewrite In_insert_key, IH. cbn. intuition.
Qed.

Lemma sorted_range (m : nat) :
  forall a keys,
    StronglySorted Z.lt keys ->
    (forall k, In k keys <-> (a <= k < a + Z.of_nat m)%Z) ->
    keys = range_from a m.
Proof.
  induction m as [|m IH]; intros a keys Hs Hin.
  - destruct keys as [|x keys]; [reflexivity|].
    assert (H : In x (x :: keys)) by now left. apply Hin in H. lia.
  - destruct keys as [|x keys].
    { assert (H : In a []) by (apply Hin; lia). destruct H. }
    apply StronglySorted_inv in Hs. destruct Hs as [Hs Hx].
    rewrite Forall_forall in Hx.
    assert (Hxa : x = a).
    { assert (H1 : (a <= x < a + Z.of_nat (S m))%Z) by (apply Hin; now left).
      assert (H2 : In a (x :: keys)) by (apply Hin; lia).
      destruct H2 as [H2|H2]; [exact H2|]. apply Hx in H2. lia. }
    subst x. cbn [range_from]. f_equal. apply IH; [exact Hs|].
    intros k. split.
    + intros Hk. pose proof (Hx k Hk).
      assert (H1 : (a <= k < a + Z.of_nat (S m))%Z) by (apply Hin; now right).
      lia.
    + intros Hk. assert (H1 : In k (a :: keys)) by (apply Hin; lia).
      destruct H1 as [H1|H1]; [lia | exact H1].
Qed.

Section SummaryKeys.
Variable split_len : Q.
Variable col : Point -> Z.
Variable df : list Point.

Lemma loop_visits_points (n : nat) (a : Z) (markers : list Marker) :
  bucket_rows col df (a - 1) <> [] ->
  for_each (split_marker split_len col df) (range_from a n) = Ok markers ->
  forall i, (a <= i < a + Z.of_nat n)%Z -> bucket_rows col df i <> [].
Proof.
  intros Hprev Hok i Hi He.
  rewrite (@loop_raises split_len col df n a Hprev) in Hok; [discriminate|].
  exists i. split; [exact Hi | exact He].
Qed.

Lemma bucket_rows_col (i : Z) :
  bucket_rows col df i <> [] -> In i (map col df).
Proof.
  intros H. destruct (bucket_rows col df i) as [|p r] eqn:E; [congruence|].
  assert (Hin : In p (bucket_rows col df i)) by (rewrite E; now left).
  apply filter_In in Hin. destruct Hin as [Hin Hp]. apply Z.eqb_eq in Hp.
  apply in_map_iff. exists p. auto.
Qed.

Lemma column_bounds lo hi (k : Z) :
  column_min (map col df) = Ok lo ->
  column_max (map col df) = Ok hi ->
  In k (map col df) -> (lo <= k <= hi)%Z.
Proof.
  unfold column_min, column_max. destruct (map col df) as [|x r];
    [discriminate|].
  intros [= <-] [= <-] Hin.
  destruct (fold_min_spec r x) as [_ Hle].
  destruct (fold_max_spec r x) as [_ Hge].
  rewrite Forall_forall in Hle, Hge. split; auto.
Qed.

(** When the loop of [get_split_markers] ends well, the buckets of the
    series are all those from the least to the greatest. *)
Lemma summary_keys lo hi (markers : list Marker) :
  column_min (map col df) = Ok lo ->
  column_max (map col df) = Ok hi ->
  for_each (split_marker split_len col df)
           (range_from (lo + 1) (Z.to_nat (hi - lo))) = Ok markers ->
  fold_right insert_key [] (map col df)
  = range_from lo (Z.to_nat (hi - lo) + 1)
  /\ length markers = Z.to_nat (hi - lo).
Proof.
  intros Hlo Hhi Hok.
  destruct (column_min_max col df Hlo Hhi) as (Hmin & Hmax & Hle).
  assert (Hprev : bucket_rows col df (lo + 1 - 1) <> [])
    by (replace (lo + 1 - 1)%Z with lo by lia; exact Hmin).
  split.
  - apply sorted_range; [apply keys_sorted|].
    intros k. rewrite In_keys. split.
    + intros Hin. pose proof (column_bounds k Hlo Hhi Hin). lia.
    + intros Hk. apply bucket_rows_col.
      destruct (Z.eq_dec k lo) as [->|Hne]; [exact Hmin|].
      apply (@loop_visits_points _ _ _ Hprev Hok). lia.
  - apply for_each_map with (g := begins) in Hok.
    + apply (f_equal (@length Z)) in Hok. rewrite length_map in Hok.
      rewrite Hok. clear. generalize (lo + 1)%Z.
      induction (Z.to_nat (hi - lo)) as [|n IH]; intros a; [reflexivity|].
      cbn [range_from length]. now rewrite IH.
    + intros x y Hxy. now apply split_marker_begins in Hxy.
Qed.

(** On a series whose buckets are the floor of the cumulative distance the
    marker of a boundary has a time. *)
Lemma split_marker_time (i : Z) (m : Marker) :
  0 < split_len ->
  Forall (fun p => col p = Qfloor (cumul_distance_2d p / split_len)) df ->
  split_marker split_len col df i = Ok m ->
  exists t, marker_time m = Some t.
Proof.
  intros Hlen Hfloor Hm. unfold split_marker in Hm.
  destruct (iloc_last (bucket_rows col df (i - 1))) as [p1|] eqn:H1;
    [|discriminate].
  destruct (iloc_first (bucket_rows col df i)) as [p2|] eqn:H2;
    [|discriminate].
  cbn [bind] in Hm. injection Hm as <-.
  apply iloc_last_In, filter_In in H1. destruct H1 as [Hin1 Hb1].
  apply iloc_first_In, filter_In in H2. destruct H2 as [Hin2 Hb2].
  apply Z.eqb_eq in Hb1, Hb2.
  rewrite Forall_forall in Hfloor.
  rewrite (Hfloor _ Hin1) in Hb1. rewrite (Hfloor _ Hin2) in Hb2.
  destruct (bucket_floor_bounds (cumul_distance_2d p1) Hlen Hb1) as [_ Hup].
  destruct (bucket_floor_bounds (cumul_distance_2d p2) Hlen Hb2) as [Hlo _].
  replace (i - 1 + 1)%Z with i in Hup by lia.
  assert (Hs : 0 < underrun_at split_len i p1 + overrun_at split_len i p2)
    by (unfold underrun_at, overrun_at; lra).
  cbn [set_ends_begins marker_time intersect_points].
  unfold portion_at, fdiv. rewrite (Qeq_bool_pos Hs).
  cbn [of_int option_map lerp]. eauto.
Qed.
End SummaryKeys.

Lemma for_each_Forall {A B : Type} (body : A -> result B) (P : B -> Prop) :
  (forall x y, body x = Ok y -> P y) ->
  forall l ys, for_each body l = Ok ys -> Forall P ys.
Proof.
  intros HP l ys H. apply for_each_Ok in H.
  eapply Forall_impl; [|exact H]. cbn beta. intros y [x [_ Hy]]. eauto.
Qed.

Lemma all_present {A : Type} (f : A -> float) (l : list A) :
  Forall (fun m => exists t, f m = Some t) l ->
  exists T, map f l = map Some T.
Proof.
  induction 1 as [|m l [t Ht] _ [T HT]]; [now exists []|].
  exists (t :: T). cbn [map]. now rewrite Ht, HT.
Qed.

Lemma shift_1_firstn {A : Type} (fill : A) (c : list A) :
  shift 1 fill c = firstn (length c) (fill :: c).
Proof.
  unfold shift. change (0 <=? 1)%Z with true. change (Z.to_nat 1) with 1%nat.
  cbv iota zeta. destruct c as [|x c]; [reflexivity|].
  cbn [length Nat.min repeat app firstn]. rewrite ?Nat.sub_0_r.
  replace (S (length c) - 1)%nat with (length c) by lia. reflexivity.
Qed.

Lemma map2_shift_1 {A B : Type} (g : A -> A -> B) (x fill : A) (c : list A) :
  map2 g (x :: c) (shift 1 fill (x :: c)) = g x fill :: map2 g c (shift 1 x c).
Proof.
  rewrite !shift_1_firstn. reflexivity.
Qed.

(** The steps between consecutive times add up to the last time minus the
    one before the first. *)
Lemma steps_telescope (T : list Q) :
  forall f,
    exists D,
      map2 fsub (map Some T) (shift 1 (Some f) (map Some T)) = map Some D
      /\ length D = length T
      /\ Qsum D == last T f - f.
Proof.
  induction T as [|x T IH]; intros f.
  - exists []. repeat split. simpl. lra.
  - destruct (IH x) as (D & HD & Hlen & Hsum).
    exists ((x - f) :: D). cbn [map]. rewrite map2_shift_1.
    split; [cbn [fsub]; f_equal; exact HD|].
    split; [cbn [length]; now rewrite Hlen|].
    change (Qsum ((x - f) :: D)) with ((x - f) + Qsum D). rewrite Hsum.
    assert (Hl : last (x :: T) f = last T x).
    { clear. revert x f. induction T as [|y T IH]; intros x f; [reflexivity|].
      change (last (x :: y :: T) f) with (last (y :: T) f).
      change (last (y :: T) x) with (match T with [] => y | _ => last T x end).
      rewrite (IH y f). destruct T; [reflexivity|]. symmetry. apply IH. }
    rewrite Hl. lra.
Qed.

Lemma align_range (rest : list float) :
  forall pre,
    map (align (pre ++ rest)) (range_from (Z.of_nat (length pre)) (length rest))
    = rest.
Proof.
  induction rest as [|x rest IH]; intros pre; [reflexivity|].
  cbn [length range_from map]. f_equal.
  - unfold align. rewrite length_app. cbn [length].
    assert (H1 : (0 <=? Z.of_nat (length pre))%Z = true) by (apply Z.leb_le; lia).
    assert (H2 : (Z.of_nat (length pre)
                  <? Z.of_nat (length pre + S (length rest)))%Z = true)
      by (apply Z.ltb_lt; lia).
    rewrite H1, H2, Nat2Z.id. cbn [andb].
    rewrite app_nth2, Nat.sub_diag; [reflexivity | lia].
  - specialize (IH (pre ++ [x])).
    rewrite <- app_assoc, length_app in IH. cbn [length app] in IH.
    replace (Z.of_nat (length pre + 1)) with (Z.of_nat (length pre) + 1)%Z
      in IH by lia.
    exact IH.
Qed.

Lemma align_past (series : list float) :
  align series (Z.of_nat (length series)) = None.
Proof.
  unfold align. rewrite Z.ltb_irrefl, andb_false_r. reflexivity.
Qed.

Lemma set_last_time_times (rows : list SplitSummary) (t : float) :
  forall xs y,
    map split_time rows = xs ++ [y] ->
    map split_time (set_last_time rows t) = xs ++ [t]
    /\ map split (set_last_time rows t) = map split rows.
Proof.
  induction rows as [|r rows IH]; intros xs y H.
  - destruct xs; discriminate.
  - destruct rows as [|r' rows].
    + destruct xs as [|x [|x' xs]]; try discriminate.
      cbn. split; reflexivity.
    + destruct xs as [|x xs]; [destruct rows; discriminate|].
      cbn [map app] in H. injection H as Hx Hrest.
      destruct (IH xs y Hrest) as [H1 H2].
      change (set_last_time (r :: r' :: rows) t)
        with (r :: set_last_time (r' :: rows) t).
      cbn [map app]. rewrite H1, H2, Hx. split; reflexivity.
Qed.

Lemma iloc_last_map_Some (T : list Q) (lm : float) :
  iloc_last (map Some T) = Ok lm -> T <> [] /\ lm = Some (last T 0).
Proof.
  unfold iloc_last. destruct T as [|x T]; [discriminate|].
  intros H. split; [discriminate|].
  destruct (last_error (map Some (x :: T))) as [v|] eqn:E; [|discriminate].
  injection H as <-.
  revert x E. induction T as [|y T IH]; intros x E.
  - cbn in E. now injection E as <-.
  - change (last_error (map Some (x :: y :: T)))
      with (last_error (map Some (y :: T))) in E.
    apply IH in E. rewrite E. reflexivity.
Qed.

Lemma Qsum_app (a b : list Q) : Qsum (a ++ b) == Qsum a + Qsum b.
Proof.
  induction a as [|x a IH]; cbn [app].
  - unfold Qsum at 2. cbn [fold_right]. lra.
  - change (Qsum (x :: a ++ b)) with (x + Qsum (a ++ b)).
    change (Qsum (x :: a)) with (x + Qsum a). rewrite IH. lra.
Qed.

Lemma last_default {A : Type} (l : list A) (a b : A) :
  l <> [] -> last l a = last l b.
Proof.
  induction l as [|x l IH]; [congruence|]. intros _.
  destruct l as [|y l]; [reflexivity|].
  change (last (x :: y :: l) a) with (last (y :: l) a).
  change (last (x :: y :: l) b) with (last (y :: l) b).
  apply IH. discriminate.
Qed.

Lemma length_range_from (n : nat) : forall a, length (range_from a n) = n.
Proof. induction n as [|n IH]; intros a; cbn; [reflexivity | now rewrite IH]. Qed.

(** When [get_split_summary] returns, on a series whose buckets are the
    floor of the cumulative distance over the unit and start at 0, the rows
    are those of the buckets 0, 1, 2, ... without a gap, every row has a
    duration, and the durations add up to the time of the last point minus
    the time of the first.  The frame of the markers is taken to be labelled
    0, 1, 2, ..., as [pd.DataFrame] labels a list of unnamed rows. *)
Theorem split_summary_durations
        (points : list Point) (split_col : string) (split_len : Q)
        (col : Point -> Z) (rows : list SplitSummary) :
  split_column split_col = Ok (split_len, col) ->
  Forall (fun p => col p = Qfloor (cumul_distance_2d p / split_len)) points ->
  column_min (map col points) = Ok 0%Z ->
  get_split_summary points split_col = Return rows ->
  exists first last durations,
    iloc_first points = Ok first
    /\ iloc_last points = Ok last
    /\ map split rows = range_from 0 (length rows)
    /\ map split_time rows = map Some durations
    /\ Qsum durations == inject_Z (time (initial last) - time (initial first)).
Proof.
  intros Hsc Hfloor Hmin H.
  pose proof (split_column_pos _ Hsc) as Hlen.
  unfold get_split_summary in H. rewrite Hsc in H. cbn [lift and_then snd] in H.
  destruct (get_split_markers points split_col) as [markers|e] eqn:Hm;
    [|discriminate].
  cbn [lift and_then] in H.
  unfold get_split_markers in Hm. rewrite Hsc in Hm. cbn [bind fst snd] in Hm.
  rewrite Hmin in Hm. cbn [bind] in Hm.
  destruct (column_max (map col points)) as [hi|e] eqn:Hhi; [|discriminate].
  cbn [bind] in Hm.
  destruct (@summary_keys split_len col points 0 hi markers Hmin Hhi Hm)
    as [Hkeys Hn].
  assert (Htimes : exists T, map marker_time markers = map Some T).
  { apply all_present.
    eapply for_each_Forall; [|exact Hm]. cbn beta. intros i m Him.
    exact (@split_marker_time split_len col points i m Hlen Hfloor Him). }
  destruct Htimes as [T HT].
  assert (HlenT : length T = Z.to_nat (hi - 0)).
  { rewrite <- Hn, <- (length_map marker_time), HT. symmetry. apply length_map. }
  destruct markers as [|m0 markers']; [discriminate|].
  cbn [and_then] in H. rewrite HT in H. clear Hm.
  destruct (iloc_first points) as [first|e] eqn:Hfirst;
    cbn [lift and_then] in H; [|discriminate H].
  destruct (iloc_last points) as [last|e] eqn:Hlast;
    cbn [lift and_then] in H; [|discriminate H].
  match type of H with
  | context [lift (@iloc_last ?A ?x)] =>
      destruct (@iloc_last A x) as [lm|e] eqn:Hlm
  end; cbn [lift and_then] in H; [|discriminate H].
  destruct (iloc_last_map_Some T Hlm) as [HTne ->].
  destruct (steps_telescope T (inject_Z (time (initial first))))
    as (D & HD & HlenD & Hsum).
  match type of H with
  | context [@map2 ?A ?B ?C fsub ?a ?b] =>
      replace (@map2 A B C fsub a b) with (map Some D) in H
        by (symmetry; exact HD)
  end.
  set (summary := map _ (grouped_mean col points)) in H.
  assert (Hsplit : map split summary = range_from 0 (Z.to_nat (hi - 0) + 1)).
  { unfold summary, grouped_mean. rewrite !map_map. cbn [split set_split_time].
    rewrite map_id. exact Hkeys. }
  assert (Htime : map split_time summary = map Some D ++ [None]).
  { unfold summary, grouped_mean. rewrite !map_map.
    cbn [split split_time set_split_time].
    rewrite Hkeys, range_from_snoc, map_app. cbn [map]. f_equal.
    - pose proof (align_range (map Some D) []) as Ha.
      rewrite length_map, HlenD, HlenT in Ha. exact Ha.
    - f_equal. cbn [Z.add]. rewrite <- HlenT, <- HlenD, <- (length_map Some D).
      apply align_past. }
  clearbody summary.
  set (t := fsub (of_int (Some (time (initial last)))) (Some (List.last T 0)))
    in H.
  destruct (@set_last_time_times summary t (map Some D) None Htime)
    as [Ht Hs].
  assert (Hrows : rows = set_last_time summary t).
  { destruct summary as [|r0 summary'].
    - exfalso. apply (f_equal (@length _)) in Htime.
      rewrite length_app in Htime. cbn [length map] in Htime. lia.
    - now injection H as <-. }
  subst rows.
  exists first, last,
    (D ++ [inject_Z (time (initial last)) - List.last T 0]).
  split; [reflexivity|]. split; [reflexivity|].
  split; [|split].
  - rewrite Hs, Hsplit. f_equal.
    rewrite <- (length_map split), Hs, Hsplit. symmetry.
    apply length_range_from.
  - rewrite Ht, map_app. reflexivity.
  - rewrite Qsum_app, Hsum, (last_default _ 0 HTne).
    unfold Qsum, Z.sub. cbn [fold_right].
    rewrite inject_Z_plus, inject_Z_opp. lra.
Qed.

Lemma split_summary_durations_witness :
  exists rows durations,
    get_split_summary long_series "km" = Return rows
    /\ map split rows = [0; 1]%Z
    /\ map split_time rows = map Some durations
    /\ Qsum durations == 2000000000000.
Proof.
  destruct (@split_summary_durations long_series "km" 1000 km
              (match get_split_summary long_series "km" with
               | Return rows => rows
               | Throw _ => []
               end))
    as (first & last & durations & Hf & Hl & Hs & Ht & Hsum).
  - reflexivity.
  - repeat constructor.
  - reflexivity.
  - vm_compute. reflexivity.
  - eexists _, durations. split; [vm_compute; reflexivity|].
    injection Hf as <-. injection Hl as <-.
    split; [exact Hs|]. split; [exact Ht|]. exact Hsum.
Defined.
